(** * lwan-request.c: request parsing and response-header encoding

    A shallow embedding of [src/lwan-request.c].  The request buffer is the
    array [char buffer[6 * 1024]] of [lwan_process_request]; pointers into it
    are offsets (in [Z], since the code computes offsets below the start of
    the array), and every access outside the array is a [Fault]. *)

From Stdlib Require Import ZArith Ascii String List Lia Bool DecimalString.
From stdpp Require Import base list.
Import ListNotations.

Local Open Scope Z_scope.

(** ** Results of memory-touching code *)

Inductive fault : Type :=
| OutOfBounds (off : Z)      (* access to buffer[off] with off outside the array *)
| InvalidPointer (addr : Z)  (* dereference of a pointer made from NULL *)
| OutOfFuel.                 (* the loop bound of the model was exhausted *)

Inductive result (A : Type) : Type :=
| Ok (a : A)
| Fault (f : fault).
Arguments Ok {A} a.
Arguments Fault {A} f.

Definition bind {A B : Type} (r : result A) (k : A -> result B) : result B :=
  match r with
  | Ok a => k a
  | Fault f => Fault f
  end.

Notation "'let*' x ':=' e 'in' k" := (bind e (fun x => k))
  (at level 10, x name, e at level 100, k at level 200).
Notation "'let*' ' x ':=' e 'in' k" := (bind e (fun x => k))
  (at level 10, x strict pattern, e at level 100, k at level 200).

(** ** Characters *)

Definition NUL : ascii := Ascii.zero.
Definition TAB : ascii := ascii_of_nat 9.
Definition LF : ascii := ascii_of_nat 10.
Definition CR : ascii := ascii_of_nat 13.

Definition chars (s : string) : list ascii := list_ascii_of_string s.

Definition Zchar (c : ascii) : Z := Z.of_N (N_of_ascii c).

(** [c | 0x20] on a [char] *)
Definition or_0x20 (c : ascii) : ascii :=
  ascii_of_N (N.lor (N_of_ascii c) 32).

(** ** The buffer *)

Abbreviation mem := (list ascii).

Definition load (m : mem) (p : Z) : result ascii :=
  if p <? 0 then Fault (OutOfBounds p)
  else match m !! Z.to_nat p with
       | Some c => Ok c
       | None => Fault (OutOfBounds p)
       end.

Definition store (m : mem) (p : Z) (c : ascii) : result mem :=
  if p <? 0 then Fault (OutOfBounds p)
  else match m !! Z.to_nat p with
       | Some _ => Ok (<[Z.to_nat p := c]> m)
       | None => Fault (OutOfBounds p)
       end.

(** [memchr(p, c, n)]: at most [n] bytes are examined, in order, and the scan
    stops at the first match. *)
Fixpoint memchr_scan (c : ascii) (l : list ascii) (p : Z) (n : nat)
  {struct n} : result (option Z) :=
  match n with
  | O => Ok None
  | S n' =>
      match l with
      | [] => Fault (OutOfBounds p)
      | x :: l' =>
          if Ascii.eqb x c then Ok (Some p) else memchr_scan c l' (p + 1) n'
      end
  end.

Definition memchr (m : mem) (p : Z) (c : ascii) (n : Z) : result (option Z) :=
  if p <? 0 then (if n <=? 0 then Ok None else Fault (OutOfBounds p))
  else memchr_scan c (drop (Z.to_nat p) m) p (Z.to_nat n).

(** [strchr(p, c)] for [c] other than NUL: the scan ends at the first [c] or
    at the terminating NUL. *)
Fixpoint strchr_scan (c : ascii) (l : list ascii) (p : Z) : result (option Z) :=
  match l with
  | [] => Fault (OutOfBounds p)
  | x :: l' =>
      if Ascii.eqb x c then Ok (Some p)
      else if Ascii.eqb x NUL then Ok None
      else strchr_scan c l' (p + 1)
  end.

Definition strchr (m : mem) (p : Z) (c : ascii) : result (option Z) :=
  if p <? 0 then Fault (OutOfBounds p)
  else strchr_scan c (drop (Z.to_nat p) m) p.

(** The NUL-terminated string that starts at [p]. *)
Fixpoint cstring_scan (l : list ascii) (p : Z) : result (list ascii) :=
  match l with
  | [] => Fault (OutOfBounds p)
  | x :: l' =>
      if Ascii.eqb x NUL then Ok []
      else let* s := cstring_scan l' (p + 1) in Ok (x :: s)
  end.

Definition cstring (m : mem) (p : Z) : result (list ascii) :=
  if p <? 0 then Fault (OutOfBounds p)
  else cstring_scan (drop (Z.to_nat p) m) p.

(** ** Declarations of lwan.h used by this file *)

(** Modelled from the spec: [MULTICHAR_CONSTANT], [STRING_SWITCH] and the
    [HTTP_STR_*] / [HTTP_HDR_*] constants of lwan.h, which is not part of the
    sources at hand.  The spec describes the match as a fixed-length prefix
    compare; the code guards it with [sizeof(int32_t)] bytes of lookahead and
    skips [buffer + 4] for GET and [buffer + 5] for HEAD, so the switch reads
    one 32-bit little-endian word at the cursor and compares it with the word
    made of the first four characters of the token. *)
Definition wrap_int32 (v : Z) : Z :=
  let u := v mod 2 ^ 32 in
  if u <? 2 ^ 31 then u else u - 2 ^ 32.

Definition MULTICHAR_CONSTANT (a b c d : ascii) : Z :=
  wrap_int32
    (Z.lor (Z.lor (Z.lor (Zchar a) (Z.shiftl (Zchar b) 8))
                  (Z.shiftl (Zchar c) 16))
           (Z.shiftl (Zchar d) 24)).

Definition HTTP_STR_GET : Z := MULTICHAR_CONSTANT "G" "E" "T" " ".
Definition HTTP_STR_HEAD : Z := MULTICHAR_CONSTANT "H" "E" "A" "D".

Definition HTTP_HDR_CONNECTION : Z := MULTICHAR_CONSTANT "C" "o" "n" "n".
Definition HTTP_HDR_HOST : Z := MULTICHAR_CONSTANT "H" "o" "s" "t".
Definition HTTP_HDR_IF_MODIFIED_SINCE : Z := MULTICHAR_CONSTANT "I" "f" "-" "M".
Definition HTTP_HDR_RANGE : Z := MULTICHAR_CONSTANT "R" "a" "n" "g".
Definition HTTP_HDR_REFERER : Z := MULTICHAR_CONSTANT "R" "e" "f" "e".
Definition HTTP_HDR_COOKIE : Z := MULTICHAR_CONSTANT "C" "o" "o" "k".

(** [*((int32_t * )(s))] *)
Definition STRING_SWITCH (m : mem) (s : Z) : result Z :=
  let* b0 := load m s in
  let* b1 := load m (s + 1) in
  let* b2 := load m (s + 2) in
  let* b3 := load m (s + 3) in
  Ok (MULTICHAR_CONSTANT b0 b1 b2 b3).

Inductive lwan_http_method_t : Type := HTTP_GET | HTTP_HEAD.

Inductive lwan_http_version_t : Type := HTTP_1_0 | HTTP_1_1.

(** Modelled from the spec: the status enumeration of lwan.h (not part of the
    sources at hand); the members are the ones this file names, plus the 200
    of the encoder's round trip, with the HTTP status numbers as values. *)
Inductive lwan_http_status_t : Type :=
| HTTP_OK
| HTTP_BAD_REQUEST
| HTTP_NOT_FOUND
| HTTP_NOT_ALLOWED
| HTTP_TOO_LARGE.

Definition status_value (s : lwan_http_status_t) : Z :=
  match s with
  | HTTP_OK => 200
  | HTTP_BAD_REQUEST => 400
  | HTTP_NOT_FOUND => 404
  | HTTP_NOT_ALLOWED => 405
  | HTTP_TOO_LARGE => 413
  end.

Record lwan_http_header_t : Type := {
  name : option (list ascii);   (* NULL in the sentinel entry *)
  value : list ascii
}.

Record lwan_response_t : Type := {
  content_length : Z;
  mime_type : list ascii;
  headers : option (list lwan_http_header_t)   (* NULL, or an array *)
}.

(** [url] is a pointer into the request buffer, kept as an offset;
    [url_len] holds the pointer difference the code assigns to it. *)
Record lwan_request_t : Type := {
  method : lwan_http_method_t;
  http_version : lwan_http_version_t;
  url : Z;
  url_len : Z;
  header_connection : ascii;
  flags_is_keep_alive : bool;
  response : lwan_response_t
}.

Definition set_method (v : lwan_http_method_t) (r : lwan_request_t) :=
  {| method := v; http_version := http_version r; url := url r;
     url_len := url_len r; header_connection := header_connection r;
     flags_is_keep_alive := flags_is_keep_alive r; response := response r |}.

Definition set_http_version (v : lwan_http_version_t) (r : lwan_request_t) :=
  {| method := method r; http_version := v; url := url r;
     url_len := url_len r; header_connection := header_connection r;
     flags_is_keep_alive := flags_is_keep_alive r; response := response r |}.

Definition set_url (v : Z) (r : lwan_request_t) :=
  {| method := method r; http_version := http_version r; url := v;
     url_len := url_len r; header_connection := header_connection r;
     flags_is_keep_alive := flags_is_keep_alive r; response := response r |}.

Definition set_url_len (v : Z) (r : lwan_request_t) :=
  {| method := method r; http_version := http_version r; url := url r;
     url_len := v; header_connection := header_connection r;
     flags_is_keep_alive := flags_is_keep_alive r; response := response r |}.

Definition set_header_connection (v : ascii) (r : lwan_request_t) :=
  {| method := method r; http_version := http_version r; url := url r;
     url_len := url_len r; header_connection := v;
     flags_is_keep_alive := flags_is_keep_alive r; response := response r |}.

Definition set_is_keep_alive (v : bool) (r : lwan_request_t) :=
  {| method := method r; http_version := http_version r; url := url r;
     url_len := url_len r; header_connection := header_connection r;
     flags_is_keep_alive := v; response := response r |}.

(** The state threaded through the parser: the buffer and the request. *)
Definition pstate : Type := (mem * lwan_request_t)%type.

(** ** The request-line parser *)

Definition _identify_http_method (m : mem) (request : lwan_request_t)
    (buffer : Z) : result (lwan_request_t * option Z) :=
  let* w := STRING_SWITCH m buffer in
  if w =? HTTP_STR_GET then Ok (set_method HTTP_GET request, Some (buffer + 4))
  else if w =? HTTP_STR_HEAD then
    Ok (set_method HTTP_HEAD request, Some (buffer + 5))
  else Ok (request, None).

(** [sizeof("HTTP/X.X")] *)
Definition sizeof_HTTP_X_X : Z := 9.

Definition _identify_http_path (m : mem) (request : lwan_request_t)
    (buffer : Z) (limit : Z) : result (pstate * option Z) :=
  let* eol := memchr m buffer CR limit in
  match eol with
  | None => Ok ((m, request), None)
  | Some end_of_line =>
      let* m := store m end_of_line NUL in
      let space := end_of_line - sizeof_HTTP_X_X in
      let* h := load m (space + 1) in
      if negb (Ascii.eqb h "H") then Ok ((m, request), None)
      else
        let* m := store m space NUL in
        let* major := load m (space + 6) in
        if Ascii.eqb major "1" then
          let* minor := load m (space + 8) in
          let request :=
            set_http_version
              (if Ascii.eqb minor "0" then HTTP_1_0 else HTTP_1_1) request in
          let request := set_url buffer request in
          let request := set_url_len (space - buffer) request in
          let* first := load m (url request) in
          if negb (Ascii.eqb first "/") then Ok ((m, request), None)
          else Ok ((m, request), Some (end_of_line + 1))
        else Ok ((m, request), None)
  end.

(** ** The header parser *)

(** [MATCH_HEADER(hdr)]: the cursor [p] after the macro, and the value pointer
    when control falls out of the macro ([None] stands for
    [goto did_not_match]). *)
Definition MATCH_HEADER (hdr : string) (m : mem) (p : Z)
  : result (mem * Z * option Z) :=
  let p := p + Z.of_nat (String.length hdr) in
  let* c := load m p in
  let p := p + 1 in
  if negb (Ascii.eqb c ":") then Ok (m, p, None)
  else
    let* c := load m p in
    let p := p + 1 in
    if negb (Ascii.eqb c " ") then Ok (m, p, None)
    else
      let* e := strchr m p CR in
      match e with
      | Some e =>
          let* m := store m e NUL in
          let value := p in
          let p := e + 1 in
          let* c := load m p in
          if negb (Ascii.eqb c LF) then Ok (m, p, None)
          else Ok (m, p, Some value)
      | None => Ok (m, p, None)
      end.

(** One [CASE_HEADER] arm whose action ignores the value. *)
Definition ignored_header (hdr : string) (m : mem) (request : lwan_request_t)
    (p : Z) : result (pstate * Z) :=
  let* '(m, p, _) := MATCH_HEADER hdr m p in Ok ((m, request), p).

(** The body of the loop of [_parse_headers], after the lookahead guard: the
    [STRING_SWITCH], then [did_not_match: p = strchr(p, '\n')]. *)
Definition header_line (m : mem) (request : lwan_request_t) (p : Z)
  : result (pstate * option Z) :=
  let* w := STRING_SWITCH m p in
  let* '((m, request), p) :=
    if w =? HTTP_HDR_CONNECTION then
      let* '(m, p, v) := MATCH_HEADER "Connection" m p in
      match v with
      | Some value =>
          let* c := load m value in
          Ok ((m, set_header_connection (or_0x20 c) request), p)
      | None => Ok ((m, request), p)
      end
    else if w =? HTTP_HDR_HOST then ignored_header "Host" m request p
    else if w =? HTTP_HDR_IF_MODIFIED_SINCE then
      ignored_header "If-Modified-Since" m request p
    else if w =? HTTP_HDR_RANGE then ignored_header "Range" m request p
    else if w =? HTTP_HDR_REFERER then ignored_header "Referer" m request p
    else if w =? HTTP_HDR_COOKIE then ignored_header "Cookie" m request p
    else Ok ((m, request), p) in
  let* q := strchr m p LF in
  Ok ((m, request), q).

(** [for (p = buffer; p && *p; buffer = ++p)].  At the head of every
    iteration [buffer] equals [p].  When [strchr] returned NULL the increment
    [buffer = ++p] yields the address 1, which the loop condition then
    dereferences. *)
Fixpoint parse_headers_loop (fuel : nat) (m : mem) (request : lwan_request_t)
    (p : Z) (buffer_end : Z) : result (pstate * option Z) :=
  match fuel with
  | O => Fault OutOfFuel
  | S fuel =>
      let* c := load m p in
      if Ascii.eqb c NUL then Ok ((m, request), Some p)
      else if p + 4 >=? buffer_end then Ok ((m, request), Some p)
      else
        let* '((m, request), q) := header_line m request p in
        match q with
        | None => Fault (InvalidPointer 1)
        | Some q => parse_headers_loop fuel m request (q + 1) buffer_end
        end
  end.

Definition _parse_headers (m : mem) (request : lwan_request_t)
    (buffer : Z) (buffer_end : Z) : result (pstate * option Z) :=
  parse_headers_loop (S (Z.to_nat (buffer_end - buffer))) m request buffer
    buffer_end.

Definition is_whitespace (c : ascii) : bool :=
  Ascii.eqb c " " || Ascii.eqb c TAB || Ascii.eqb c CR || Ascii.eqb c LF.

Fixpoint ignore_leading_whitespace_scan (l : list ascii) (p : Z) : result Z :=
  match l with
  | [] => Fault (OutOfBounds p)
  | x :: l' =>
      if negb (Ascii.eqb x NUL) && is_whitespace x
      then ignore_leading_whitespace_scan l' (p + 1)
      else Ok p
  end.

Definition _ignore_leading_whitespace (m : mem) (buffer : Z) : result Z :=
  if buffer <? 0 then Fault (OutOfBounds buffer)
  else ignore_leading_whitespace_scan (drop (Z.to_nat buffer) m) buffer.

(** ** Flags *)

Definition _compute_flags (request : lwan_request_t) : lwan_request_t :=
  match http_version request with
  | HTTP_1_1 =>
      set_is_keep_alive (negb (Ascii.eqb (header_connection request) "c"))
        request
  | HTTP_1_0 =>
      set_is_keep_alive (Ascii.eqb (header_connection request) "k") request
  end.

(** ** The entry point *)

Record lwan_url_map_t : Type := {
  prefix_len : Z;
  callback : nat     (* which handler the route names *)
}.

(** What [read(request->fd, buffer, sizeof(buffer))] did. *)
Inductive read_result : Type :=
| ReadError                        (* -1 *)
| ReadBytes (data : list ascii).   (* the bytes delivered; none at end of file *)

(** How [lwan_process_request] ends: the call it returns through, with the
    request and the buffer as they are at that call. *)
Inductive outcome : Type :=
| ReturnFalse
| DefaultResponse (status : lwan_http_status_t) (request : lwan_request_t)
    (m : mem)
| Response (url_map : lwan_url_map_t) (request : lwan_request_t) (m : mem).

Definition sizeof_buffer : Z := 6 * 1024.

(** The array after [read]: the delivered bytes over what the stack held. *)
Definition read_into (stack : mem) (data : list ascii) : mem :=
  let data := take (Z.to_nat sizeof_buffer) data in
  data ++ drop (length data) stack.

(** Lines 182 to 198: the stages between the read and the routing.  The
    status, when there is one, is that of the default response a failed stage
    ends with. *)
Definition parse_stages (m : mem) (request : lwan_request_t) (bytes_read : Z)
  : result (pstate * option lwan_http_status_t) :=
  let* p_buffer := _ignore_leading_whitespace m 0 in
  let* c := load m p_buffer in
  if Ascii.eqb c NUL then Ok ((m, request), Some HTTP_BAD_REQUEST)
  else
    let* '(request, p_buffer) := _identify_http_method m request p_buffer in
    match p_buffer with
    | None => Ok ((m, request), Some HTTP_NOT_ALLOWED)
    | Some p_buffer =>
        let* '((m, request), p_buffer) :=
          _identify_http_path m request p_buffer bytes_read in
        match p_buffer with
        | None => Ok ((m, request), Some HTTP_BAD_REQUEST)
        | Some p_buffer =>
            let* '((m, request), p_buffer) :=
              _parse_headers m request p_buffer (0 + bytes_read) in
            match p_buffer with
            | None => Ok ((m, request), Some HTTP_BAD_REQUEST)
            | Some _ => Ok ((m, _compute_flags request), None)
            end
        end
    end.

Section Process.

(** [lwan_trie_lookup_prefix(l->url_map_trie, .)]: the router, external to
    this file. *)
Variable lwan_trie_lookup_prefix : list ascii -> option lwan_url_map_t.

Definition lwan_process_request (stack : mem) (rd : read_result)
    (request : lwan_request_t) : result outcome :=
  match rd with
  | ReadError => Ok ReturnFalse
  | ReadBytes data =>
      let buffer := read_into stack data in
      let bytes_read :=
        Z.of_nat (length (take (Z.to_nat sizeof_buffer) data)) in
      if bytes_read =? 0 then Ok ReturnFalse
      else if bytes_read =? sizeof_buffer then
        Ok (DefaultResponse HTTP_TOO_LARGE request buffer)
      else
        let* buffer := store buffer bytes_read NUL in
        let* '((buffer, request), failed) :=
          parse_stages buffer request bytes_read in
        match failed with
        | Some status => Ok (DefaultResponse status request buffer)
        | None =>
            let* path := cstring buffer (url request) in
            match lwan_trie_lookup_prefix path with
            | Some url_map =>
                let request :=
                  set_url (url request + prefix_len url_map) request in
                Ok (Response url_map request buffer)
            | None => Ok (DefaultResponse HTTP_NOT_FOUND request buffer)
            end
        end
  end.

End Process.

(** ** The response-header encoder *)

Definition _http_versions (v : lwan_http_version_t) : list ascii :=
  match v with
  | HTTP_1_0 => chars "1.0"
  | HTTP_1_1 => chars "1.1"
  end.

Definition _http_connection_type (is_keep_alive : bool) : list ascii :=
  if is_keep_alive then chars "Keep-Alive" else chars "Close".

(** Modelled from the spec: [decimal_digits] and [int_to_string] of
    int-to-str.h, which is not part of the sources at hand: the table of the
    ten digits, and the general conversion of an integer to its decimal
    digits ([int_to_string] here is the text the helper leaves in the
    scratch buffer; the length it returns is the length of that text). *)
Definition decimal_digits : list ascii := chars "0123456789".

Definition int_to_string (v : Z) : list ascii :=
  chars (NilZero.string_of_int (Z.to_int v)).

Fixpoint strlen (s : list ascii) : nat :=
  match s with
  | [] => O
  | x :: s' => if Ascii.eqb x NUL then O else S (strlen s')
  end.

(** [memcpy(p, src, len)] into the header buffer. *)
Fixpoint memcpy (h : mem) (p : Z) (src : list ascii) (len : nat) {struct len}
  : result mem :=
  match len with
  | O => Ok h
  | S len' =>
      match src with
      | [] => Fault (OutOfBounds (Z.of_nat len))
      | x :: src' => let* h := store h p x in memcpy h (p + 1) src' len'
      end
  end.

(** The header buffer and the cursor [p_headers]. *)
Definition hstate : Type := (mem * Z)%type.

Definition APPEND_STRING_LEN (const_str_ : list ascii) (len_ : Z)
    (st : hstate) : result hstate :=
  let '(h, p_headers) := st in
  let* h := memcpy h p_headers const_str_ (Z.to_nat len_) in
  Ok (h, p_headers + len_).

Definition APPEND_STRING (str_ : list ascii) (st : hstate) : result hstate :=
  let len := Z.of_nat (strlen str_) in
  APPEND_STRING_LEN str_ len st.

Definition APPEND_CHAR (value_ : ascii) (st : hstate) : result hstate :=
  let '(h, p_headers) := st in
  let* h := store h p_headers value_ in
  Ok (h, p_headers + 1).

Definition digit (i : Z) : result ascii :=
  if i <? 0 then Fault (OutOfBounds i)
  else match decimal_digits !! Z.to_nat i with
       | Some c => Ok c
       | None => Fault (OutOfBounds i)
       end.

Definition APPEND_INT8 (value_ : Z) (st : hstate) : result hstate :=
  let* d := digit (Z.rem (Z.quot value_ 100) 10) in
  let* st := APPEND_CHAR d st in
  let* d := digit (Z.rem (Z.quot value_ 10) 10) in
  let* st := APPEND_CHAR d st in
  let* d := digit (Z.rem value_ 10) in
  APPEND_CHAR d st.

Definition APPEND_INT (value_ : Z) (st : hstate) : result hstate :=
  let buffer := int_to_string value_ in
  let len := Z.of_nat (length buffer) in
  APPEND_STRING_LEN buffer len st.

(** [sizeof(const_str_) - 1] is the number of characters of the literal. *)
Definition APPEND_CONSTANT (const_str_ : list ascii) (st : hstate)
  : result hstate :=
  APPEND_STRING_LEN const_str_ (Z.of_nat (length const_str_)) st.

(** [for (header = request->response->headers; header->name; header++)] *)
Fixpoint append_headers (array : list lwan_http_header_t) (st : hstate)
  : result hstate :=
  match array with
  | [] => Fault (OutOfBounds 0)        (* no sentinel entry in the array *)
  | header :: array' =>
      match name header with
      | None => Ok st
      | Some header_name =>
          let* st := APPEND_CHAR CR st in
          let* st := APPEND_CHAR LF st in
          let* st := APPEND_STRING header_name st in
          let* st := APPEND_CHAR ":" st in
          let* st := APPEND_CHAR " " st in
          let* st := APPEND_STRING (value header) st in
          append_headers array' st
      end
  end.

(** [request->response->headers] (the encoder's own parameter is called
    [headers] too). *)
Definition response_headers (request : lwan_request_t)
  : option (list lwan_http_header_t) :=
  headers (response request).

Section Encoder.

(** [lwan_http_status_as_string]: the reason-phrase table, external to
    this file. *)
Variable lwan_http_status_as_string : lwan_http_status_t -> list ascii.

Definition lwan_prepare_response_header (request : lwan_request_t)
    (status : lwan_http_status_t) (headers : mem) : result (Z * mem) :=
  let st : hstate := (headers, 0) in
  let* st := APPEND_CONSTANT (chars "HTTP/") st in
  let* st := APPEND_STRING_LEN (_http_versions (http_version request)) 3 st in
  let* st := APPEND_CHAR " " st in
  let* st := APPEND_INT8 (status_value status) st in
  let* st := APPEND_CHAR " " st in
  let* st := APPEND_STRING (lwan_http_status_as_string status) st in
  let* st := APPEND_CONSTANT ([CR; LF] ++ chars "Content-Length: ") st in
  let* st := APPEND_INT (content_length (response request)) st in
  let* st := APPEND_CONSTANT ([CR; LF] ++ chars "Content-Type: ") st in
  let* st := APPEND_STRING (mime_type (response request)) st in
  let* st := APPEND_CONSTANT ([CR; LF] ++ chars "Connection: ") st in
  let* st :=
    APPEND_STRING_LEN
      (_http_connection_type (flags_is_keep_alive request))
      (if flags_is_keep_alive request
       then Z.of_nat (length (chars "Keep-Alive"))
       else Z.of_nat (length (chars "Close"))) st in
  let* st :=
    match response_headers request with
    | Some array => append_headers array st
    | None => Ok st
    end in
  let* st :=
    APPEND_CONSTANT
      ([CR; LF] ++ chars "Server: lwan" ++ [CR; LF; CR; LF; NUL]) st in
  Ok (snd st - 0 - 1, fst st).

End Encoder.

(** ** Vocabulary of the statements *)

Definition CRLF : list ascii := [CR; LF].

(** No byte of [l] is [c]. *)
Definition no_byte (c : ascii) (l : list ascii) : bool :=
  forallb (fun x => negb (Ascii.eqb x c)) l.

(** The bytes a method token occupies in the buffer: ["GET "], or ["HEAD"]
    and the one byte the cursor skips after it. *)
Definition method_token (method : lwan_http_method_t) (skipped : ascii)
  : list ascii :=
  match method with
  | HTTP_GET => chars "GET "
  | HTTP_HEAD => chars "HEAD" ++ [skipped]
  end.

(** The array once [read] delivered [data] and line 180 terminated it. *)
Definition terminated (stack : mem) (data : list ascii) : mem :=
  data ++ NUL :: drop (S (length data)) stack.

(** Lines 190 to 198 of [lwan_process_request]: what [parse_stages] does
    once the method is identified. *)
Definition stages_after_method (m : mem) (request : lwan_request_t)
    (p_buffer : Z) (bytes_read : Z)
  : result (pstate * option lwan_http_status_t) :=
  let* '((m, request), p_buffer) :=
    _identify_http_path m request p_buffer bytes_read in
  match p_buffer with
  | None => Ok ((m, request), Some HTTP_BAD_REQUEST)
  | Some p_buffer =>
      let* '((m, request), p_buffer) :=
        _parse_headers m request p_buffer (0 + bytes_read) in
      match p_buffer with
      | None => Ok ((m, request), Some HTTP_BAD_REQUEST)
      | Some _ => Ok ((m, _compute_flags request), None)
      end
  end.

Definition sample_stack : mem := repeat "x"%char (Z.to_nat sizeof_buffer).

Definition sample_request : lwan_request_t :=
  {| method := HTTP_GET; http_version := HTTP_1_0; url := 0; url_len := 0;
     header_connection := NUL; flags_is_keep_alive := false;
     response :=
       {| content_length := 0; mime_type := []; headers := None |} |}.

Definition no_routes (path : list ascii) : option lwan_url_map_t := None.

(** ** What a parse stage does to the request and to the buffer *)

(** The assignments a stage makes to the request: [None] leaves the field as
    it was. *)
Record assignment : Type := {
  a_method : option lwan_http_method_t;
  a_http_version : option lwan_http_version_t;
  a_url : option Z;
  a_url_len : option Z;
  a_connection : option ascii
}.

Definition assign (a : assignment) (r : lwan_request_t) : lwan_request_t :=
  {| method := default (method r) (a_method a);
     http_version := default (http_version r) (a_http_version a);
     url := default (url r) (a_url a);
     url_len := default (url_len r) (a_url_len a);
     header_connection := default (header_connection r) (a_connection a);
     flags_is_keep_alive := flags_is_keep_alive r;
     response := response r |}.

Definition later {A : Type} (second first : option A) : option A :=
  match second with
  | Some x => Some x
  | None => first
  end.

(** [a2] after [a1] *)
Definition assign_then (a1 a2 : assignment) : assignment :=
  {| a_method := later (a_method a2) (a_method a1);
     a_http_version := later (a_http_version a2) (a_http_version a1);
     a_url := later (a_url a2) (a_url a1);
     a_url_len := later (a_url_len a2) (a_url_len a1);
     a_connection := later (a_connection a2) (a_connection a1) |}.

Definition no_assignment : assignment :=
  {| a_method := None; a_http_version := None; a_url := None;
     a_url_len := None; a_connection := None |}.

(** [m'] is [m] with some bytes overwritten by NUL. *)
Definition nul_writes (m m' : mem) : Prop :=
  length m' = length m /\
  forall i : nat, m' !! i = m !! i \/ m' !! i = Some NUL.

(** [m'] is [m] with some carriage returns overwritten by NUL. *)
Definition cr_cut (m m' : mem) : Prop :=
  length m' = length m /\
  forall i : nat, m' !! i = m !! i \/ (m !! i = Some CR /\ m' !! i = Some NUL).

Definition assign_connection (oc : option ascii) : assignment :=
  {| a_method := None; a_http_version := None; a_url := None;
     a_url_len := None; a_connection := oc |}.

Definition assign_method (method : lwan_http_method_t) : assignment :=
  {| a_method := Some method; a_http_version := None; a_url := None;
     a_url_len := None; a_connection := None |}.

Definition assign_line (version : lwan_http_version_t) (url url_len : Z)
  : assignment :=
  {| a_method := None; a_http_version := Some version; a_url := Some url;
     a_url_len := Some url_len; a_connection := None |}.

(** [parse_stages] computes the flags only when every stage succeeded. *)
Definition finish (failed : option lwan_http_status_t) (r : lwan_request_t)
  : lwan_request_t :=
  match failed with
  | None => _compute_flags r
  | Some _ => r
  end.

(** The computation did not stop for lack of fuel. *)
Definition terminates {A : Type} (r : result A) : Prop :=
  r <> Fault OutOfFuel.

(** The request an outcome carries, if any. *)
Definition outcome_request (o : outcome) : option lwan_request_t :=
  match o with
  | ReturnFalse => None
  | DefaultResponse _ request _ => Some request
  | Response _ request _ => Some request
  end.

Fixpoint starts_with (prefix s : list ascii) : bool :=
  match prefix, s with
  | [], _ => true
  | _ :: _, [] => false
  | x :: prefix', y :: s' => Ascii.eqb x y && starts_with prefix' s'
  end.

(** A router with the single route "/hello". *)
Definition hello_route (path : list ascii) : option lwan_url_map_t :=
  if starts_with (chars "/hello") path
  then Some {| prefix_len := 6; callback := 0 |}
  else None.

(** "GET / HTTP/1.1" and the blank line that ends the header block. *)
Definition get_root : list ascii := chars "GET / HTTP/1.1" ++ CRLF ++ CRLF.

(** The names of the [CASE_HEADER] arms of [_parse_headers]. *)
Definition allow_list : list string :=
  ["Connection"; "Host"; "If-Modified-Since"; "Range"; "Referer"; "Cookie"]%string.

(** The action of the arm for [hdr], given the first byte [v] of the value:
    only Connection has one. *)
Definition header_action (hdr : string) (v : ascii) (r : lwan_request_t)
  : lwan_request_t :=
  if String.eqb hdr "Connection" then set_header_connection (or_0x20 v) r
  else r.



(** The header buffer [h] once the bytes [w] were written from its start. *)
Definition overwrite (w : list ascii) (h : mem) : mem :=
  w ++ drop (length w) h.

(** The encoder's state after [w] was appended. *)
Definition appended (w : list ascii) (h : mem) : hstate :=
  (overwrite w h, Z.of_nat (length w)).

(** The response has no extra header: the array pointer is NULL, or the
    array starts with the sentinel entry. *)
Definition no_extra_headers (request : lwan_request_t) : Prop :=
  response_headers request = None \/
  exists sentinel rest, response_headers request = Some (sentinel :: rest) /\
                        name sentinel = None.

(** The header block of the round trip. *)
Definition ok_42_text_plain_block : list ascii :=
  chars "HTTP/1.1 200 OK" ++ CRLF ++
  chars "Content-Length: 42" ++ CRLF ++
  chars "Content-Type: text/plain" ++ CRLF ++
  chars "Connection: Keep-Alive" ++ CRLF ++
  chars "Server: lwan" ++ CRLF ++ CRLF.

Definition sample_phrases (status : lwan_http_status_t) : list ascii :=
  match status with
  | HTTP_OK => chars "OK"
  | HTTP_BAD_REQUEST => chars "Bad request"
  | HTTP_NOT_FOUND => chars "Not found"
  | HTTP_NOT_ALLOWED => chars "Not allowed"
  | HTTP_TOO_LARGE => chars "Request too large"
  end.

Definition sample_response_request : lwan_request_t :=
  {| method := HTTP_GET; http_version := HTTP_1_1; url := 0; url_len := 0;
     header_connection := NUL; flags_is_keep_alive := true;
     response :=
       {| content_length := 42; mime_type := chars "text/plain";
          headers := None |} |}.

(** A stack that holds a carriage return where index 14 of the array will
    be. *)
Definition stack_with_cr_at_14 : mem :=
  repeat "x"%char 14 ++ CR :: repeat "x"%char (Z.to_nat sizeof_buffer - 15).

(** The version a minor digit stands for. *)
Definition version_of_minor (minor : ascii) : lwan_http_version_t :=
  if Ascii.eqb minor "0" then HTTP_1_0 else HTTP_1_1.

(** The request as the request line [<verb> <u> HTTP/1.<minor>] leaves it,
    the line starting at [line_start]. *)
Definition after_request_line (verb : lwan_http_method_t) (line_start : Z)
    (u : list ascii) (minor : ascii) (request : lwan_request_t)
  : lwan_request_t :=
  set_url_len (Z.of_nat (length u))
    (set_url line_start
       (set_http_version (version_of_minor minor)
          (set_method verb request))).

(** What the entry point does once the parse stages succeeded with [parsed]
    and the URL [u]. *)
Definition routed (lookup : list ascii -> option lwan_url_map_t)
    (u : list ascii) (parsed : lwan_request_t) (m : mem) : outcome :=
  match lookup u with
  | Some url_map =>
      Response url_map (set_url (url parsed + prefix_len url_map) parsed) m
  | None => DefaultResponse HTTP_NOT_FOUND parsed m
  end.

(** The bytes of a request: whitespace, the method token, the request line
    [<u> HTTP/1.<minor>], a carriage return and the rest. *)
Definition request_bytes (ws : list ascii) (verb : lwan_http_method_t)
    (skipped : ascii) (u : list ascii) (minor : ascii) (rest : list ascii)
  : list ascii :=
  ws ++ method_token verb skipped ++
  (u ++ chars " HTTP/1." ++ [minor]) ++ CR :: rest.

(** Where the request line starts. *)
Definition line_start (ws : list ascii) (verb : lwan_http_method_t)
    (skipped : ascii) : Z :=
  Z.of_nat (length (ws ++ method_token verb skipped)).

(** The array once the request line of [request_bytes] was cut out: a NUL on
    the space before the version and one on the carriage return. *)
Definition cut_request_line (stack : mem) (ws : list ascii)
    (verb : lwan_http_method_t) (skipped : ascii) (u : list ascii)
    (minor : ascii) (rest : list ascii) : mem :=
  (ws ++ method_token verb skipped) ++ u ++
  (NUL :: chars "HTTP/1." ++ [minor]) ++ NUL ::
  (rest ++ NUL ::
     drop (S (length (request_bytes ws verb skipped u minor rest))) stack).

(** ** Header blocks *)










(** ** The bytes of a header block *)

(** The characters of a C string: what comes before its first NUL. *)
Definition cstr (s : list ascii) : list ascii := take (strlen s) s.

(** The digit for [i] in [decimal_digits] ('0' outside 0..9). *)
Definition digit_char (i : Z) : ascii :=
  nth (Z.to_nat i) decimal_digits "0"%char.

(** The three characters [APPEND_INT8] takes from [decimal_digits]. *)
Definition three_digits (v : Z) : list ascii :=
  [digit_char (Z.rem (Z.quot v 100) 10);
   digit_char (Z.rem (Z.quot v 10) 10);
   digit_char (Z.rem v 10)].

(** The lines of the extra headers, up to the sentinel entry; [None] when
    the array has no sentinel. *)
Fixpoint extra_header_lines (array : list lwan_http_header_t)
  : option (list ascii) :=
  match array with
  | [] => None
  | header :: array' =>
      match name header with
      | None => Some []
      | Some header_name =>
          match extra_header_lines array' with
          | Some lines =>
              Some (CRLF ++ cstr header_name ++ chars ": " ++
                    cstr (value header) ++ lines)
          | None => None
          end
      end
  end.

(** The header block of a response, without the NUL that follows it. *)
Definition header_block
    (lwan_http_status_as_string : lwan_http_status_t -> list ascii)
    (request : lwan_request_t) (status : lwan_http_status_t)
  : option (list ascii) :=
  match
    match response_headers request with
    | Some array => extra_header_lines array
    | None => Some []
    end
  with
  | Some extra =>
      Some (chars "HTTP/" ++ _http_versions (http_version request) ++
            chars " " ++ three_digits (status_value status) ++ chars " " ++
            cstr (lwan_http_status_as_string status) ++ CRLF ++
            chars "Content-Length: " ++
            int_to_string (content_length (response request)) ++ CRLF ++
            chars "Content-Type: " ++ cstr (mime_type (response request)) ++
            CRLF ++
            chars "Connection: " ++
            _http_connection_type (flags_is_keep_alive request) ++
            extra ++ CRLF ++
            chars "Server: lwan" ++ CRLF ++ CRLF)
  | None => None
  end.

(** Copy [bytes] at the cursor and move the cursor past them. *)
Definition emit (bytes : list ascii) (st : hstate) : result hstate :=
  let '(h, p) := st in
  let* h := memcpy h p bytes (length bytes) in
  Ok (h, p + Z.of_nat (length bytes)).

(** A HEAD request over HTTP/1.0 whose response carries one extra header,
    and the block the encoder writes for it with status 404. *)
Definition cache_control : lwan_http_header_t :=
  {| name := Some (chars "Cache-Control"); value := chars "no-cache" |}.

Definition sentinel : lwan_http_header_t := {| name := None; value := [] |}.

Definition not_found_request : lwan_request_t :=
  {| method := HTTP_HEAD; http_version := HTTP_1_0; url := 0; url_len := 0;
     header_connection := NUL; flags_is_keep_alive := false;
     response :=
       {| content_length := 0; mime_type := chars "text/html";
          headers := Some [cache_control; sentinel] |} |}.

Definition not_found_block : list ascii :=
  chars "HTTP/1.0 404 Not found" ++ CRLF ++
  chars "Content-Length: 0" ++ CRLF ++
  chars "Content-Type: text/html" ++ CRLF ++
  chars "Connection: Close" ++ CRLF ++
  chars "Cache-Control: no-cache" ++ CRLF ++
  chars "Server: lwan" ++ CRLF ++ CRLF.

(** The same response with an array that lacks the sentinel entry. *)
Definition unterminated_request : lwan_request_t :=
  {| method := HTTP_HEAD; http_version := HTTP_1_0; url := 0; url_len := 0;
     header_connection := NUL; flags_is_keep_alive := false;
     response :=
       {| content_length := 0; mime_type := chars "text/html";
          headers := Some [cache_control] |} |}.

(** The buffer an outcome carries, if any. *)
Definition outcome_buffer (o : outcome) : option mem :=
  match o with
  | ReturnFalse => None
  | DefaultResponse _ _ m => Some m
  | Response _ _ m => Some m
  end.

(** ** Setting the response *)

(** [request->response = response] *)
Definition lwan_request_set_response (request : lwan_request_t)
    (response : lwan_response_t) : lwan_request_t :=
  {| method := method request; http_version := http_version request;
     url := url request; url_len := url_len request;
     header_connection := header_connection request;
     flags_is_keep_alive := flags_is_keep_alive request;
     response := response |}.

(** [f] on the request an outcome carries. *)
Definition outcome_map (f : lwan_request_t -> lwan_request_t) (o : outcome)
  : outcome :=
  match o with
  | ReturnFalse => ReturnFalse
  | DefaultResponse status request m => DefaultResponse status (f request) m
  | Response url_map request m => Response url_map (f request) m
  end.

(** A response of 1234 bytes of HTML with one extra header. *)
Definition html_response : lwan_response_t :=
  {| content_length := 1234; mime_type := chars "text/html";
     headers := Some [cache_control; sentinel] |}.

(** * Properties *)

(** ** Walking a buffer written as a concatenation *)

Lemma load_Ok (m : mem) (p : Z) (c : ascii) :
  load m p = Ok c <-> 0 <= p /\ m !! Z.to_nat p = Some c.
Proof.
  unfold load. destruct (Z.ltb_spec p 0).
  - split; [discriminate | lia].
  - destruct (m !! Z.to_nat p) eqn:E; split; intros H1.
    + inversion H1; subst; auto.
    + destruct H1 as [_ H1]. congruence.
    + discriminate.
    + destruct H1 as [_ H1]. discriminate.
Qed.

Lemma load_app (a b : mem) (p : Z) (c : ascii) :
  Z.of_nat (length a) <= p ->
  load b (p - Z.of_nat (length a)) = Ok c -> load (a ++ b) p = Ok c.
Proof.
  intros H. rewrite !load_Ok. intros [H1 H2]. split; [lia|].
  rewrite lookup_app_r by lia.
  replace (Z.to_nat p - length a)%nat with (Z.to_nat (p - Z.of_nat (length a)))
    by lia.
  exact H2.
Qed.

Lemma load_app_l (a b : mem) (p : Z) (c : ascii) :
  load a p = Ok c -> load (a ++ b) p = Ok c.
Proof.
  rewrite !load_Ok. intros [H1 H2]. split; [lia|].
  apply lookup_app_l_Some. exact H2.
Qed.

Lemma load_cons_pos (x : ascii) (l : mem) (p : Z) (c : ascii) :
  0 < p -> load l (p - 1) = Ok c -> load (x :: l) p = Ok c.
Proof.
  intros H. rewrite !load_Ok. intros [H1 H2]. split; [lia|].
  replace (Z.to_nat p) with (S (Z.to_nat (p - 1))) by lia. exact H2.
Qed.

Lemma load_cons_0 (x : ascii) (l : mem) (p : Z) :
  p = 0 -> load (x :: l) p = Ok x.
Proof. intros ->. reflexivity. Qed.

Lemma store_Ok (m m' : mem) (p : Z) (c : ascii) :
  store m p c = Ok m' <->
  0 <= p < Z.of_nat (length m) /\ m' = <[Z.to_nat p := c]> m.
Proof.
  unfold store. destruct (Z.ltb_spec p 0).
  - split; [discriminate | lia].
  - destruct (m !! Z.to_nat p) eqn:E; split; intros H1.
    + inversion H1; subst. apply lookup_lt_Some in E. split; [lia | reflexivity].
    + destruct H1 as [_ ->]. reflexivity.
    + discriminate.
    + apply lookup_ge_None in E. lia.
Qed.

Lemma store_app (a b b' : mem) (p : Z) (c : ascii) :
  Z.of_nat (length a) <= p ->
  store b (p - Z.of_nat (length a)) c = Ok b' ->
  store (a ++ b) p c = Ok (a ++ b').
Proof.
  intros H. rewrite !store_Ok. intros [H1 ->]. rewrite length_app.
  split; [lia|].
  rewrite insert_app_r_alt by lia. f_equal. f_equal. lia.
Qed.

Lemma store_cons_pos (x : ascii) (l l' : mem) (p : Z) (c : ascii) :
  0 < p -> store l (p - 1) c = Ok l' -> store (x :: l) p c = Ok (x :: l').
Proof.
  intros H. rewrite !store_Ok. intros [H1 ->]. simpl length.
  split; [lia|].
  replace (Z.to_nat p) with (S (Z.to_nat (p - 1))) by lia. reflexivity.
Qed.

Lemma store_cons_0 (x : ascii) (l : mem) (p : Z) (c : ascii) :
  p = 0 -> store (x :: l) p c = Ok (c :: l).
Proof. intros ->. reflexivity. Qed.

Lemma drop_app_Z (a b : mem) (p : Z) :
  Z.of_nat (length a) <= p ->
  drop (Z.to_nat p) (a ++ b) = drop (Z.to_nat (p - Z.of_nat (length a))) b.
Proof.
  intros H. rewrite drop_app.
  rewrite drop_ge by lia. simpl. f_equal. lia.
Qed.

Lemma drop_cons_pos (x : ascii) (l : mem) (p : Z) :
  0 < p -> drop (Z.to_nat p) (x :: l) = drop (Z.to_nat (p - 1)) l.
Proof.
  intros H. replace (Z.to_nat p) with (S (Z.to_nat (p - 1))) by lia.
  reflexivity.
Qed.

Lemma drop_Z_0 (l : mem) (p : Z) : p = 0 -> drop (Z.to_nat p) l = l.
Proof. intros ->. reflexivity. Qed.

(** Resolve a [load], [store] or [drop] at a position that [lia] can place
    inside a buffer written with [++] and [::]. *)
Ltac solve_load :=
  repeat first
    [ apply load_cons_0; lia
    | apply load_app; [lia|]
    | apply load_cons_pos; [lia|] ].

Ltac solve_store :=
  repeat first
    [ apply store_cons_0; lia
    | apply store_app; [lia|]
    | apply store_cons_pos; [lia|] ].

Ltac walk_drop :=
  repeat first
    [ rewrite drop_app_Z by lia
    | rewrite drop_cons_pos by lia
    | rewrite drop_Z_0 by lia ].

Ltac walk_load :=
  match goal with
  | |- context [load ?M ?P] =>
      let H := fresh "Hload" in
      eassert (H : load M P = Ok _) by solve_load;
      rewrite H; clear H
  end.

Ltac walk_store :=
  match goal with
  | |- context [store ?M ?P ?C] =>
      let H := fresh "Hstore" in
      eassert (H : store M P C = Ok _) by solve_store;
      rewrite H; clear H
  end.

(** The array of [lwan_process_request] has a byte at every index below its
    size, whatever the stack held. *)
Lemma stack_drop_cons (stack : mem) (n : nat) :
  length stack = Z.to_nat sizeof_buffer -> Z.of_nat n < sizeof_buffer ->
  exists c tl, drop n stack = c :: tl.
Proof.
  intros Hlen Hn.
  destruct (drop n stack) as [|c tl] eqn:E.
  - apply (f_equal length) in E. rewrite length_drop in E. simpl in E. lia.
  - eauto.
Qed.

Lemma read_into_short (stack : mem) (data : list ascii) :
  Z.of_nat (length data) <= sizeof_buffer ->
  take (Z.to_nat sizeof_buffer) data = data /\
  read_into stack data = data ++ drop (length data) stack.
Proof.
  intros H. unfold read_into.
  rewrite take_ge by lia.
  auto.
Qed.

(** Evaluate the entry point on given bytes, for any stack contents. *)
Ltac eval_process Hlen :=
  unfold lwan_process_request;
  match goal with
  | |- context [read_into ?stack ?data] =>
      destruct (read_into_short stack data) as [-> ->];
      [ vm_compute; discriminate
      | let c := fresh "c" in
        let tl := fresh "tl" in
        let E := fresh "E" in
        destruct (stack_drop_cons stack (length data) Hlen) as (c & tl & E);
        [ vm_compute; reflexivity
        | let n := eval vm_compute in (length data) in
          change (length data) with n in *;
          rewrite E; vm_compute ] ]
  end.

(** ** Scans over a buffer written as a concatenation *)

Lemma no_byte_cons (c x : ascii) (l : list ascii) :
  no_byte c (x :: l) = true -> Ascii.eqb x c = false /\ no_byte c l = true.
Proof.
  unfold no_byte. simpl. rewrite andb_true_iff, negb_true_iff. tauto.
Qed.

Lemma memchr_scan_app (c : ascii) (a b : list ascii) (p : Z) (n : nat) :
  no_byte c a = true -> (length a < n)%nat ->
  memchr_scan c (a ++ c :: b) p n = Ok (Some (p + Z.of_nat (length a))).
Proof.
  revert p n. induction a as [|x a IH]; intros p n Ha Hn.
  - destruct n; [simpl in Hn; lia|]. simpl. rewrite Ascii.eqb_refl.
    f_equal. f_equal. lia.
  - apply no_byte_cons in Ha as [Hx Ha].
    destruct n; [simpl in Hn; lia|]. simpl. rewrite Hx.
    rewrite IH by (simpl in Hn; auto; lia). f_equal. f_equal.
    simpl length. lia.
Qed.

Lemma strchr_scan_app (c : ascii) (a b : list ascii) (p : Z) :
  no_byte c a = true -> no_byte NUL a = true ->
  strchr_scan c (a ++ c :: b) p = Ok (Some (p + Z.of_nat (length a))).
Proof.
  revert p. induction a as [|x a IH]; intros p Ha Hz.
  - simpl. rewrite Ascii.eqb_refl. f_equal. f_equal. lia.
  - apply no_byte_cons in Ha as [Hx Ha].
    apply no_byte_cons in Hz as [Hxz Hz].
    simpl. rewrite Hx, Hxz. rewrite IH by auto. f_equal. f_equal.
    simpl length. lia.
Qed.

Lemma whitespace_scan_app (ws l : list ascii) (x : ascii) (p : Z) :
  forallb is_whitespace ws = true -> is_whitespace x = false ->
  ignore_leading_whitespace_scan (ws ++ x :: l) p
  = Ok (p + Z.of_nat (length ws)).
Proof.
  revert p. induction ws as [|w ws IH]; intros p Hws Hx.
  - simpl. rewrite Hx, andb_false_r. f_equal. lia.
  - simpl in Hws. apply andb_true_iff in Hws as [Hw Hws].
    simpl. rewrite Hw, andb_true_r.
    replace (Ascii.eqb w NUL) with false.
    + simpl. rewrite IH by auto. f_equal. lia.
    + symmetry. apply Ascii.eqb_neq. intros ->. discriminate.
Qed.

(** ** The request line *)

(** [_identify_http_path] on a line that is at least as long as the nine
    bytes the code steps back over: only the second, seventh and ninth of
    those bytes and the first byte of the line are looked at. *)
Lemma identify_http_path_long_line
    (pre u post : list ascii) (s0 s1 s2 s3 s4 s5 s6 s7 s8 : ascii)
    (request : lwan_request_t) (limit : Z) :
  no_byte CR (u ++ [s0; s1; s2; s3; s4; s5; s6; s7; s8]) = true ->
  Z.of_nat (length u) + 9 < limit ->
  let buffer := Z.of_nat (length pre) in
  let m1 := pre ++ u ++ [s0; s1; s2; s3; s4; s5; s6; s7; s8] ++ NUL :: post in
  let m2 := pre ++ u ++ [NUL; s1; s2; s3; s4; s5; s6; s7; s8] ++ NUL :: post in
  let request' :=
    set_url_len (Z.of_nat (length u))
      (set_url buffer
         (set_http_version
            (if Ascii.eqb s8 "0" then HTTP_1_0 else HTTP_1_1) request)) in
  _identify_http_path
    (pre ++ u ++ [s0; s1; s2; s3; s4; s5; s6; s7; s8] ++ CR :: post)
    request buffer limit
  = if negb (Ascii.eqb s1 "H") then Ok ((m1, request), None)
    else if Ascii.eqb s6 "1" then
      if negb (Ascii.eqb (hd NUL (u ++ [NUL])) "/")
      then Ok ((m2, request'), None)
      else Ok ((m2, request'), Some (buffer + Z.of_nat (length u) + 10))
    else Ok ((m2, request), None).
Proof.
  intros Hcr Hlim buffer m1 m2 request'. subst buffer m1 m2 request'.
  unfold _identify_http_path, memchr, sizeof_HTTP_X_X.
  destruct (Z.ltb_spec (Z.of_nat (length pre)) 0); [lia|].
  walk_drop.
  replace (u ++ [s0; s1; s2; s3; s4; s5; s6; s7; s8] ++ CR :: post)
    with ((u ++ [s0; s1; s2; s3; s4; s5; s6; s7; s8]) ++ CR :: post)
    by (rewrite <- app_assoc; reflexivity).
  rewrite memchr_scan_app by (auto; rewrite length_app; simpl; lia).
  rewrite length_app. simpl length. simpl bind.
  rewrite <- app_assoc. simpl app.
  walk_store. simpl bind.
  walk_load. simpl bind.
  destruct (Ascii.eqb s1 "H"); simpl negb; cbv iota; [|reflexivity].
  walk_store. simpl bind.
  walk_load. simpl bind.
  destruct (Ascii.eqb s6 "1"); [|reflexivity].
  walk_load. simpl bind.
  unfold set_url_len at 1. unfold url at 1.
  unfold set_url at 1.
  assert (Hfirst : load
    (pre ++ u ++ NUL :: s1 :: s2 :: s3 :: s4 :: s5 :: s6 :: s7 :: s8 :: NUL :: post)
    (Z.of_nat (length pre)) = Ok (hd NUL (u ++ [NUL]))).
  { destruct u as [|c u]; simpl; solve_load. }
  rewrite Hfirst. simpl bind.
  replace (Z.of_nat (length pre) + Z.of_nat (length u + 9) - 9
           - Z.of_nat (length pre)) with (Z.of_nat (length u)) by lia.
  replace (Z.of_nat (length pre) + Z.of_nat (length u + 9) + 1)
    with (Z.of_nat (length pre) + Z.of_nat (length u) + 10) by lia.
  reflexivity.
Qed.

(** ** From the read to the request line *)

Lemma terminate_read (stack : mem) (data : list ascii) :
  length stack = Z.to_nat sizeof_buffer ->
  Z.of_nat (length data) < sizeof_buffer ->
  store (read_into stack data) (Z.of_nat (length data)) NUL
  = Ok (terminated stack data).
Proof.
  intros Hlen Hdata.
  destruct (read_into_short stack data) as [_ ->]; [lia|].
  destruct (stack_drop_cons stack (length data) Hlen Hdata) as (c & tl & E).
  unfold terminated. rewrite E.
  replace (drop (S (length data)) stack) with tl.
  - solve_store.
  - change (S (length data)) with (1 + length data)%nat.
    rewrite Nat.add_comm, <- drop_drop, E. reflexivity.
Qed.

(** A read of fewer bytes than the array holds goes on to the parse stages,
    and their verdict decides the response. *)
Lemma process_request_stages
    (lookup : list ascii -> option lwan_url_map_t) (stack : mem)
    (data : list ascii) (request : lwan_request_t) :
  length stack = Z.to_nat sizeof_buffer ->
  0 < Z.of_nat (length data) < sizeof_buffer ->
  lwan_process_request lookup stack (ReadBytes data) request
  = let* '((buffer, request), failed) :=
      parse_stages (terminated stack data) request (Z.of_nat (length data)) in
    match failed with
    | Some status => Ok (DefaultResponse status request buffer)
    | None =>
        let* path := cstring buffer (url request) in
        match lookup path with
        | Some url_map =>
            Ok (Response url_map
                  (set_url (url request + prefix_len url_map) request) buffer)
        | None => Ok (DefaultResponse HTTP_NOT_FOUND request buffer)
        end
    end.
Proof.
  intros Hlen Hdata. unfold lwan_process_request.
  destruct (read_into_short stack data) as [-> _]; [lia|].
  destruct (Z.eqb_spec (Z.of_nat (length data)) 0); [lia|].
  destruct (Z.eqb_spec (Z.of_nat (length data)) sizeof_buffer); [lia|].
  rewrite terminate_read by (auto; lia). reflexivity.
Qed.

(** Leading whitespace is skipped and the method token recognised by its
    first four bytes. *)
Lemma parse_stages_method (stack : mem) (ws rest : list ascii)
    (method : lwan_http_method_t) (skipped : ascii)
    (request : lwan_request_t) (bytes_read : Z) :
  forallb is_whitespace ws = true ->
  let data := ws ++ method_token method skipped ++ rest in
  parse_stages (terminated stack data) request bytes_read
  = stages_after_method (terminated stack data) (set_method method request)
      (Z.of_nat (length (ws ++ method_token method skipped))) bytes_read.
Proof.
  intros Hws data. subst data.
  unfold parse_stages, stages_after_method, terminated, _ignore_leading_whitespace.
  destruct (Z.ltb_spec 0 0); [lia|]. rewrite drop_Z_0 by reflexivity.
  destruct method; simpl method_token; rewrite <- !app_assoc; simpl app.
  - rewrite whitespace_scan_app by auto. simpl bind.
    walk_load. simpl bind. change (Ascii.eqb "G" NUL) with false. cbv iota.
    unfold _identify_http_method, STRING_SWITCH.
    do 4 (walk_load; simpl bind).
    change (MULTICHAR_CONSTANT "G" "E" "T" " " =? HTTP_STR_GET) with true.
    cbv iota. simpl bind.
    f_equal. f_equal. rewrite length_app. simpl. lia.
  - rewrite whitespace_scan_app by auto. simpl bind.
    walk_load. simpl bind. change (Ascii.eqb "H" NUL) with false. cbv iota.
    unfold _identify_http_method, STRING_SWITCH.
    do 4 (walk_load; simpl bind).
    change (MULTICHAR_CONSTANT "H" "E" "A" "D" =? HTTP_STR_GET) with false.
    change (MULTICHAR_CONSTANT "H" "E" "A" "D" =? HTTP_STR_HEAD) with true.
    cbv iota. simpl bind.
    f_equal. f_equal. rewrite length_app. simpl. lia.
Qed.

(** ** What the scans return *)

Lemma memchr_scan_found (c : ascii) (l : list ascii) (p : Z) (n : nat) (e : Z) :
  memchr_scan c l p n = Ok (Some e) ->
  p <= e < p + Z.of_nat n /\ l !! Z.to_nat (e - p) = Some c.
Proof.
  revert l p. induction n as [|n IH]; intros l p H; simpl in H.
  - discriminate H.
  - destruct l as [|x l]; [discriminate H|].
    destruct (Ascii.eqb_spec x c) as [->|Hne].
    + inversion H; subst. split; [lia|].
      replace (e - e) with 0 by lia. reflexivity.
    + apply IH in H as [H1 H2]. split; [lia|].
      replace (Z.to_nat (e - p)) with (S (Z.to_nat (e - (p + 1)))) by lia.
      exact H2.
Qed.

Lemma memchr_found (m : mem) (p : Z) (c : ascii) (n e : Z) :
  memchr m p c n = Ok (Some e) ->
  0 <= p <= e /\ e < p + n /\ m !! Z.to_nat e = Some c.
Proof.
  unfold memchr. destruct (Z.ltb_spec p 0).
  - destruct (n <=? 0); intros; discriminate.
  - intros H0. apply memchr_scan_found in H0 as [H1 H2].
    rewrite lookup_drop in H2.
    replace (Z.to_nat p + Z.to_nat (e - p))%nat with (Z.to_nat e) in H2 by lia.
    repeat split; auto; lia.
Qed.

Lemma strchr_scan_found (c : ascii) (l : list ascii) (p e : Z) :
  strchr_scan c l p = Ok (Some e) ->
  p <= e /\ l !! Z.to_nat (e - p) = Some c.
Proof.
  revert p. induction l as [|x l IH]; intros p H; simpl in H.
  - discriminate H.
  - destruct (Ascii.eqb_spec x c) as [->|Hne].
    + inversion H; subst. split; [lia|].
      replace (e - e) with 0 by lia. reflexivity.
    + destruct (Ascii.eqb x NUL); [discriminate H|].
      apply IH in H as [H1 H2]. split; [lia|].
      replace (Z.to_nat (e - p)) with (S (Z.to_nat (e - (p + 1)))) by lia.
      exact H2.
Qed.

Lemma strchr_found (m : mem) (p : Z) (c : ascii) (e : Z) :
  strchr m p c = Ok (Some e) -> 0 <= p <= e /\ m !! Z.to_nat e = Some c.
Proof.
  unfold strchr. destruct (Z.ltb_spec p 0); [discriminate|].
  intros H0. apply strchr_scan_found in H0 as [H1 H2].
  rewrite lookup_drop in H2.
  replace (Z.to_nat p + Z.to_nat (e - p))%nat with (Z.to_nat e) in H2 by lia.
  split; auto; lia.
Qed.

(** ** Buffers that differ by NUL writes *)

Lemma cr_cut_refl (m : mem) : cr_cut m m.
Proof. split; auto. Qed.

Lemma cr_cut_trans (m1 m2 m3 : mem) :
  cr_cut m1 m2 -> cr_cut m2 m3 -> cr_cut m1 m3.
Proof.
  intros [L1 H1] [L2 H2]. split; [congruence|].
  intros i. destruct (H2 i) as [E2|[E2 E2']], (H1 i) as [E1|[E1 E1']].
  - left. congruence.
  - right. split; congruence.
  - right. split; congruence.
  - rewrite E1' in E2. discriminate E2.
Qed.

Lemma cr_cut_store (m m' : mem) (e : Z) :
  m !! Z.to_nat e = Some CR -> store m e NUL = Ok m' -> cr_cut m m'.
Proof.
  intros Hcr Hst. apply store_Ok in Hst as [Hb ->]. split.
  - apply length_insert.
  - intros i. destruct (decide (Z.to_nat e = i)) as [<-|Hne].
    + right. split; auto. apply list_lookup_insert_eq. lia.
    + left. apply list_lookup_insert_ne. exact Hne.
Qed.

Lemma cr_cut_nul_writes (m m' : mem) : cr_cut m m' -> nul_writes m m'.
Proof.
  intros [L H]. split; auto. intros i. destruct (H i) as [E|[_ E]]; auto.
Qed.

Lemma nul_writes_refl (m : mem) : nul_writes m m.
Proof. split; auto. Qed.

Lemma nul_writes_trans (m1 m2 m3 : mem) :
  nul_writes m1 m2 -> nul_writes m2 m3 -> nul_writes m1 m3.
Proof.
  intros [L1 H1] [L2 H2]. split; [congruence|].
  intros i. destruct (H2 i) as [E2|E2], (H1 i) as [E1|E1]; auto.
  - left. congruence.
  - right. congruence.
Qed.

Lemma nul_writes_store (m m' : mem) (e : Z) :
  store m e NUL = Ok m' -> nul_writes m m'.
Proof.
  intros Hst. apply store_Ok in Hst as [Hb ->]. split.
  - apply length_insert.
  - intros i. destruct (decide (Z.to_nat e = i)) as [<-|Hne].
    + right. apply list_lookup_insert_eq. lia.
    + left. apply list_lookup_insert_ne. exact Hne.
Qed.

Lemma cr_cut_load (m m' : mem) (p : Z) (c : ascii) :
  cr_cut m m' -> c <> CR -> load m p = Ok c -> load m' p = Ok c.
Proof.
  intros [_ H] Hc. rewrite !load_Ok. intros [Hp E]. split; auto.
  destruct (H (Z.to_nat p)) as [E'|[E' _]]; congruence.
Qed.

(** ** Assignments *)

Lemma assign_assign (a1 a2 : assignment) (r : lwan_request_t) :
  assign a2 (assign a1 r) = assign (assign_then a1 a2) r.
Proof.
  destruct a1 as [[?|] [?|] [?|] [?|] [?|]], a2 as [[?|] [?|] [?|] [?|] [?|]];
    reflexivity.
Qed.

Lemma assign_idempotent (a : assignment) (r : lwan_request_t) :
  assign a (assign a r) = assign a r.
Proof. destruct a as [[?|] [?|] [?|] [?|] [?|]]; reflexivity. Qed.

Lemma assign_none (r : lwan_request_t) : assign no_assignment r = r.
Proof. destruct r; reflexivity. Qed.

Lemma assign_compute_flags (a : assignment) (r : lwan_request_t) :
  _compute_flags (assign a (_compute_flags (assign a r)))
  = _compute_flags (assign a r).
Proof.
  destruct a as [[?|] [v|] [?|] [?|] [?|]], r as [? v' ? ? ? ? ?];
    unfold _compute_flags; simpl;
    try destruct v; try destruct v'; reflexivity.
Qed.

(** ** The header parser: what it writes and what it assigns *)

(** Split the first [let*] of a hypothesis that says a computation is [Ok]. *)
Ltac inv_bind H :=
  match type of H with
  | bind ?e _ = Ok _ =>
      let E := fresh "E" in
      destruct e eqn:E; simpl in H; [|discriminate H]
  end.

Lemma MATCH_HEADER_inv (hdr : string) (m m' : mem) (p p' : Z) (v : option Z) :
  MATCH_HEADER hdr m p = Ok (m', p', v) -> cr_cut m m' /\ p < p'.
Proof.
  unfold MATCH_HEADER. intros H.
  inv_bind H.
  destruct (negb (Ascii.eqb a ":")).
  { inversion H; subst. split; [apply cr_cut_refl | lia]. }
  inv_bind H.
  destruct (negb (Ascii.eqb a0 " ")).
  { inversion H; subst. split; [apply cr_cut_refl | lia]. }
  inv_bind H.
  destruct a1 as [e|].
  - apply strchr_found in E1 as [He Hcr].
    inv_bind H. inv_bind H.
    assert (Hcut : cr_cut m a1) by (eapply cr_cut_store; eauto).
    destruct (negb (Ascii.eqb a2 LF)); inversion H; subst; split; auto; lia.
  - inversion H; subst. split; [apply cr_cut_refl | lia].
Qed.

Lemma ignored_header_inv (hdr : string) (m m' : mem)
    (r r' : lwan_request_t) (p p' : Z) :
  ignored_header hdr m r p = Ok ((m', r'), p') ->
  cr_cut m m' /\ p < p' /\
  forall r0, ignored_header hdr m r0 p = Ok ((m', assign no_assignment r0), p').
Proof.
  unfold ignored_header. intros H. inv_bind H.
  destruct a as [[m1 p1] v]. inversion H; subst.
  apply MATCH_HEADER_inv in E as [Hcut Hp].
  split; [exact Hcut|]. split; [exact Hp|].
  intros r0. rewrite assign_none. reflexivity.
Qed.

Lemma header_line_inv (m m' : mem) (r r' : lwan_request_t) (p : Z)
    (q : option Z) :
  header_line m r p = Ok ((m', r'), q) ->
  cr_cut m m' /\
  (forall q', q = Some q' -> p <= q') /\
  exists oc, forall r0,
    header_line m r0 p = Ok ((m', assign (assign_connection oc) r0), q).
Proof.
  unfold header_line. intros H. inv_bind H. rename a into w. cbn [bind].
  assert (Hignored : forall hdr,
    (let* '(m0, request, p0) := ignored_header hdr m r p in
     let* q0 := strchr m0 p0 LF in Ok (m0, request, q0)) = Ok ((m', r'), q) ->
    cr_cut m m' /\ (forall q', q = Some q' -> p <= q') /\
    exists oc, forall r0,
      (let* '(m0, request, p0) := ignored_header hdr m r0 p in
       let* q0 := strchr m0 p0 LF in Ok (m0, request, q0))
      = Ok ((m', assign (assign_connection oc) r0), q)).
  { intros hdr H1.
    destruct (ignored_header hdr m r p) as [[[m1 r1] p1]|] eqn:E0;
      [|discriminate H1].
    apply ignored_header_inv in E0 as (Hcut & Hp & Hu).
    simpl in H1.
    destruct (strchr m1 p1 LF) as [q0|] eqn:E1; [|discriminate H1].
    inversion H1; subst.
    split; [auto|]. split.
    - intros q' ->. apply strchr_found in E1. lia.
    - exists None. intros r0. rewrite Hu. simpl. rewrite E1. reflexivity. }
  destruct (w =? HTTP_HDR_CONNECTION).
  { clear Hignored.
    destruct (MATCH_HEADER "Connection" m p) as [[[m2 p2] v]|] eqn:E1;
      [|discriminate H].
    apply MATCH_HEADER_inv in E1 as [Hcut Hp]. cbn [bind] in *.
    destruct v as [value|].
    - destruct (load m2 value) as [c|] eqn:E2; [|discriminate H].
      cbn [bind] in *.
      destruct (strchr m2 p2 LF) as [q0|] eqn:E3; [|discriminate H].
      inversion H; subst. split; [exact Hcut|]. split.
      + intros q' ->. apply strchr_found in E3. lia.
      + exists (Some (or_0x20 c)). intros r0. reflexivity.
    - cbn [bind] in *.
      destruct (strchr m2 p2 LF) as [q0|] eqn:E3; [|discriminate H].
      inversion H; subst. split; [exact Hcut|]. split.
      + intros q' ->. apply strchr_found in E3. lia.
      + exists None. intros r0. simpl. rewrite assign_none. reflexivity. }
  destruct (w =? HTTP_HDR_HOST); [eapply Hignored; eauto|].
  destruct (w =? HTTP_HDR_IF_MODIFIED_SINCE); [eapply Hignored; eauto|].
  destruct (w =? HTTP_HDR_RANGE); [eapply Hignored; eauto|].
  destruct (w =? HTTP_HDR_REFERER); [eapply Hignored; eauto|].
  destruct (w =? HTTP_HDR_COOKIE); [eapply Hignored; eauto|].
  cbn [bind] in *.
  destruct (strchr m p LF) as [q0|] eqn:E3; [|discriminate H].
  inversion H; subst.
  split; [apply cr_cut_refl|]. split.
  - intros q' ->. apply strchr_found in E3.
    unfold STRING_SWITCH in E. inv_bind E. apply load_Ok in E0. lia.
  - exists None. intros r0. simpl. rewrite assign_none.
    reflexivity.
Qed.

Lemma parse_headers_loop_inv (fuel : nat) (m m' : mem)
    (r r' : lwan_request_t) (p buffer_end : Z) (q : option Z) :
  parse_headers_loop fuel m r p buffer_end = Ok ((m', r'), q) ->
  cr_cut m m' /\
  exists oc, forall r0,
    parse_headers_loop fuel m r0 p buffer_end
    = Ok ((m', assign (assign_connection oc) r0), q).
Proof.
  revert m r p. induction fuel as [|fuel IH]; intros m r p H; simpl in H.
  - discriminate H.
  - destruct (load m p) as [c|] eqn:E; [|discriminate H]. cbn [bind] in H.
    destruct (Ascii.eqb c NUL) eqn:Ec.
    { inversion H; subst. split; [apply cr_cut_refl|]. exists None.
      intros r0. simpl. rewrite E. simpl. rewrite Ec, assign_none.
      reflexivity. }
    destruct (p + 4 >=? buffer_end) eqn:Eg.
    { inversion H; subst. split; [apply cr_cut_refl|]. exists None.
      intros r0. simpl. rewrite E. simpl. rewrite Ec, Eg, assign_none.
      reflexivity. }
    destruct (header_line m r p) as [[[m1 r1] q1]|] eqn:El; [|discriminate H].
    cbn [bind] in H.
    apply header_line_inv in El as (Hcut & _ & oc1 & Hu1).
    destruct q1 as [q1|]; [|discriminate H].
    apply IH in H as (Hcut2 & oc2 & Hu2).
    split; [eapply cr_cut_trans; eauto|].
    exists (later oc2 oc1). intros r0. simpl. rewrite E. simpl.
    rewrite Ec, Eg, Hu1. simpl. rewrite Hu2. rewrite assign_assign.
    reflexivity.
Qed.

Lemma identify_http_method_inv (m : mem) (r r' : lwan_request_t) (p : Z)
    (q : option Z) :
  _identify_http_method m r p = Ok (r', q) ->
  exists a, forall r0, _identify_http_method m r0 p = Ok (assign a r0, q).
Proof.
  unfold _identify_http_method. intros H. inv_bind H. cbn [bind].
  destruct (a =? HTTP_STR_GET).
  { exists (assign_method HTTP_GET). intros r0. inversion H. reflexivity. }
  destruct (a =? HTTP_STR_HEAD).
  { exists (assign_method HTTP_HEAD). intros r0. inversion H. reflexivity. }
  exists no_assignment. intros r0. inversion H. rewrite assign_none.
  reflexivity.
Qed.

Lemma identify_http_path_inv (m m' : mem) (r r' : lwan_request_t)
    (buffer limit : Z) (q : option Z) :
  _identify_http_path m r buffer limit = Ok ((m', r'), q) ->
  nul_writes m m' /\
  (exists a, forall r0,
     _identify_http_path m r0 buffer limit = Ok ((m', assign a r0), q)) /\
  (forall q', q = Some q' ->
     url r' = buffer /\ url_len r' < limit - 9 /\ load m' buffer = Ok "/"%char).
Proof.
  unfold _identify_http_path, sizeof_HTTP_X_X. intros H.
  destruct (memchr m buffer CR limit) as [[eol|]|] eqn:Ee;
    cbn [bind] in *; [| |discriminate H].
  2:{ inversion H; subst. split; [apply nul_writes_refl|]. split.
      - exists no_assignment. intros r0. rewrite assign_none. reflexivity.
      - intros q' Hq. discriminate Hq. }
  apply memchr_found in Ee as (Hb & He & Hcr).
  destruct (store m eol NUL) as [m1|] eqn:E1; [|discriminate H].
  cbn [bind] in *.
  assert (H1 : nul_writes m m1) by (eapply nul_writes_store; eauto).
  destruct (load m1 (eol - 9 + 1)) as [h|] eqn:E2; [|discriminate H].
  cbn [bind] in *.
  destruct (negb (Ascii.eqb h "H")).
  { inversion H; subst. split; [auto|]. split.
    - exists no_assignment. intros r0. rewrite assign_none. reflexivity.
    - intros q' Hq. discriminate Hq. }
  destruct (store m1 (eol - 9) NUL) as [m2|] eqn:E3; [|discriminate H].
  cbn [bind] in *.
  assert (H2 : nul_writes m m2).
  { eapply nul_writes_trans; eauto. eapply nul_writes_store; eauto. }
  destruct (load m2 (eol - 9 + 6)) as [major|] eqn:E4; [|discriminate H].
  cbn [bind] in *.
  destruct (Ascii.eqb major "1").
  2:{ inversion H; subst. split; [auto|]. split.
      - exists no_assignment. intros r0. rewrite assign_none. reflexivity.
      - intros q' Hq. discriminate Hq. }
  destruct (load m2 (eol - 9 + 8)) as [minor|] eqn:E5; [|discriminate H].
  cbn [bind] in *.
  change (url (set_url_len (eol - 9 - buffer)
            (set_url buffer
               (set_http_version
                  (if Ascii.eqb minor "0" then HTTP_1_0 else HTTP_1_1) r))))
    with buffer in H.
  assert (Hurl : forall r0, url (set_url_len (eol - 9 - buffer)
            (set_url buffer
               (set_http_version
                  (if Ascii.eqb minor "0" then HTTP_1_0 else HTTP_1_1) r0)))
            = buffer) by reflexivity.
  destruct (load m2 buffer) as [first|] eqn:E6; [|discriminate H].
  cbn [bind] in *.
  destruct (Ascii.eqb_spec first "/") as [->|Hne]; simpl negb in *;
    cbv iota in *; inversion H; subst; (split; [auto|]); split.
  - exists (assign_line (if Ascii.eqb minor "0" then HTTP_1_0 else HTTP_1_1)
              buffer (eol - 9 - buffer)).
    intros r0. rewrite Hurl, E6. reflexivity.
  - intros q' _. simpl. repeat split; auto. lia.
  - exists (assign_line (if Ascii.eqb minor "0" then HTTP_1_0 else HTTP_1_1)
              buffer (eol - 9 - buffer)).
    intros r0. rewrite Hurl, E6. simpl.
    destruct (Ascii.eqb_spec first "/"); [contradiction|]. reflexivity.
  - intros q' Hq. discriminate Hq.
Qed.

(** ** The parse stages as a whole *)

Lemma finish_assign (a : assignment) (o : option lwan_http_status_t)
    (r : lwan_request_t) :
  finish o (assign a (finish o (assign a r))) = finish o (assign a r).
Proof.
  destruct o; simpl.
  - apply assign_idempotent.
  - apply assign_compute_flags.
Qed.

Lemma parse_stages_inv (m m' : mem) (r r' : lwan_request_t) (bytes_read : Z)
    (o : option lwan_http_status_t) :
  parse_stages m r bytes_read = Ok ((m', r'), o) ->
  nul_writes m m' /\
  (exists a, forall r0,
     parse_stages m r0 bytes_read = Ok ((m', finish o (assign a r0)), o)) /\
  (o = None ->
     url_len r' < bytes_read /\ load m' (url r') = Ok "/"%char).
Proof.
  unfold parse_stages. intros H.
  destruct (_ignore_leading_whitespace m 0) as [p0|] eqn:E0; [|discriminate H].
  cbn [bind] in *.
  destruct (load m p0) as [c|] eqn:E1; [|discriminate H]. cbn [bind] in *.
  destruct (Ascii.eqb c NUL).
  { inversion H; subst. split; [apply nul_writes_refl|]. split.
    - exists no_assignment. intros r0. simpl. rewrite assign_none. reflexivity.
    - intros Ho. discriminate Ho. }
  destruct (_identify_http_method m r p0) as [[r1 q1]|] eqn:E2;
    [|discriminate H].
  destruct (identify_http_method_inv _ _ _ _ _ E2) as [a1 Hu1].
  assert (Hr1 : r1 = assign a1 r).
  { specialize (Hu1 r). rewrite E2 in Hu1. inversion Hu1. reflexivity. }
  cbn [bind] in H.
  destruct q1 as [p1|].
  2:{ inversion H; subst m' r' o. split; [apply nul_writes_refl|]. split.
      - exists a1. intros r0. rewrite Hu1. reflexivity.
      - intros Ho. discriminate Ho. }
  destruct (_identify_http_path m r1 p1 bytes_read) as [[[m2 r2] q2]|] eqn:E3;
    [|discriminate H].
  cbn [bind] in H.
  destruct (identify_http_path_inv _ _ _ _ _ _ _ E3) as (Hw2 & [a2 Hu2] & Hs2).
  assert (Hr2 : r2 = assign a2 r1).
  { specialize (Hu2 r1). rewrite E3 in Hu2. inversion Hu2. reflexivity. }
  destruct q2 as [p2|].
  2:{ inversion H; subst m' r' o. split; [auto|]. split.
      - exists (assign_then a1 a2). intros r0. rewrite Hu1. cbn [bind].
        rewrite Hu2. cbn [bind]. rewrite assign_assign. reflexivity.
      - intros Ho. discriminate Ho. }
  destruct (_parse_headers m2 r2 p2 (0 + bytes_read)) as [[[m3 r3] q3]|] eqn:E4;
    [|discriminate H].
  cbn [bind] in H. unfold _parse_headers in E4.
  destruct (parse_headers_loop_inv _ _ _ _ _ _ _ _ E4) as (Hc3 & oc & Hu3).
  assert (Hr3 : r3 = assign (assign_connection oc) r2).
  { specialize (Hu3 r2). rewrite E4 in Hu3. inversion Hu3. reflexivity. }
  assert (Hw3 : nul_writes m m3).
  { eapply nul_writes_trans; eauto. apply cr_cut_nul_writes. exact Hc3. }
  assert (Hall : forall r0,
    (let* ' (request, p_buffer) := _identify_http_method m r0 p0 in
     match p_buffer with
     | Some p_buffer0 =>
         let* ' (m0, request0, p_buffer1)
           := _identify_http_path m request p_buffer0 bytes_read in
         match p_buffer1 with
         | Some p_buffer2 =>
             let* ' (m1, request1, p_buffer3)
               := _parse_headers m0 request0 p_buffer2 (0 + bytes_read) in
             match p_buffer3 with
             | Some _ => Ok (m1, _compute_flags request1, None)
             | None => Ok (m1, request1, Some HTTP_BAD_REQUEST)
             end
         | None => Ok (m0, request0, Some HTTP_BAD_REQUEST)
         end
     | None => Ok (m, request, Some HTTP_NOT_ALLOWED)
     end)
    = match q3 with
      | Some _ =>
          Ok (m3, _compute_flags
                    (assign (assign_then a1 (assign_then a2 (assign_connection oc))) r0), None)
      | None =>
          Ok (m3, assign (assign_then a1 (assign_then a2 (assign_connection oc))) r0,
              Some HTTP_BAD_REQUEST)
      end).
  { intros r0. rewrite Hu1. cbn [bind]. rewrite Hu2. cbn [bind].
    unfold _parse_headers. rewrite Hu3. cbn [bind].
    destruct q3; rewrite !assign_assign; reflexivity. }
  destruct (Hs2 p2 eq_refl) as (Hurl & Hlen & Hslash).
  destruct q3 as [p3|]; inversion H; subst m' r' o.
  - split; [auto|]. split.
    + exists (assign_then a1 (assign_then a2 (assign_connection oc))).
      intros r0. rewrite Hall. reflexivity.
    + intros _. rewrite Hr3.
      replace (url_len (_compute_flags (assign (assign_connection oc) r2)))
        with (url_len r2)
        by (unfold _compute_flags;
            destruct (http_version (assign (assign_connection oc) r2));
            reflexivity).
      replace (url (_compute_flags (assign (assign_connection oc) r2)))
        with (url r2)
        by (unfold _compute_flags;
            destruct (http_version (assign (assign_connection oc) r2));
            reflexivity).
      split; [lia|]. rewrite Hurl.
      eapply cr_cut_load; [exact Hc3 | discriminate | exact Hslash].
  - split; [auto|]. split.
    + exists (assign_then a1 (assign_then a2 (assign_connection oc))).
      intros r0. rewrite Hall. reflexivity.
    + intros Ho. discriminate Ho.
Qed.

(** ** The loop bound of [_parse_headers] is never reached *)

Lemma terminates_bind {A B : Type} (e : result A) (k : A -> result B) :
  terminates e -> (forall a, e = Ok a -> terminates (k a)) ->
  terminates (bind e k).
Proof.
  unfold terminates. destruct e as [a|f]; simpl; intros He Hk.
  - apply Hk. reflexivity.
  - intros E. apply He. inversion E. reflexivity.
Qed.

Lemma terminates_Ok {A : Type} (a : A) : terminates (Ok a).
Proof. discriminate. Qed.

Lemma terminates_load (m : mem) (p : Z) : terminates (load m p).
Proof.
  unfold terminates, load.
  destruct (p <? 0); [discriminate|]. destruct (m !! Z.to_nat p); discriminate.
Qed.

Lemma terminates_store (m : mem) (p : Z) (c : ascii) :
  terminates (store m p c).
Proof.
  unfold terminates, store.
  destruct (p <? 0); [discriminate|]. destruct (m !! Z.to_nat p); discriminate.
Qed.

Lemma terminates_strchr (m : mem) (p : Z) (c : ascii) :
  terminates (strchr m p c).
Proof.
  unfold terminates, strchr. destruct (p <? 0); [discriminate|].
  generalize (drop (Z.to_nat p) m) as l. intros l. revert p.
  induction l as [|x l IH]; intros p; simpl; [discriminate|].
  destruct (Ascii.eqb x c); [discriminate|].
  destruct (Ascii.eqb x NUL); [discriminate|]. apply IH.
Qed.

Lemma terminates_STRING_SWITCH (m : mem) (p : Z) :
  terminates (STRING_SWITCH m p).
Proof.
  unfold STRING_SWITCH.
  repeat (apply terminates_bind; [apply terminates_load | intros ? _]).
  apply terminates_Ok.
Qed.

Lemma terminates_MATCH_HEADER (hdr : string) (m : mem) (p : Z) :
  terminates (MATCH_HEADER hdr m p).
Proof.
  unfold MATCH_HEADER.
  apply terminates_bind; [apply terminates_load | intros c _].
  destruct (negb (Ascii.eqb c ":")); [apply terminates_Ok|].
  apply terminates_bind; [apply terminates_load | intros c' _].
  destruct (negb (Ascii.eqb c' " ")); [apply terminates_Ok|].
  apply terminates_bind; [apply terminates_strchr | intros [e|] _];
    [|apply terminates_Ok].
  apply terminates_bind; [apply terminates_store | intros m1 _].
  apply terminates_bind; [apply terminates_load | intros c'' _].
  destruct (negb (Ascii.eqb c'' LF)); apply terminates_Ok.
Qed.

Lemma terminates_header_line (m : mem) (r : lwan_request_t) (p : Z) :
  terminates (header_line m r p).
Proof.
  assert (Hignored : forall hdr, terminates (ignored_header hdr m r p)).
  { intros hdr. unfold ignored_header.
    apply terminates_bind; [apply terminates_MATCH_HEADER|].
    intros [[m1 p1] v] _. apply terminates_Ok. }
  unfold header_line.
  apply terminates_bind; [apply terminates_STRING_SWITCH | intros w _].
  apply terminates_bind.
  - destruct (w =? HTTP_HDR_CONNECTION).
    { apply terminates_bind; [apply terminates_MATCH_HEADER|].
      intros [[m1 p1] [value|]] _; [|apply terminates_Ok].
      apply terminates_bind; [apply terminates_load | intros c _].
      apply terminates_Ok. }
    repeat match goal with
           | |- terminates (if ?b then _ else _) =>
               destruct b; [apply Hignored|]
           end.
    apply terminates_Ok.
  - intros [[m1 r1] p1] _.
    apply terminates_bind; [apply terminates_strchr | intros q _].
    apply terminates_Ok.
Qed.

Lemma terminates_parse_headers_loop (fuel : nat) (m : mem)
    (r : lwan_request_t) (p buffer_end : Z) :
  (Z.to_nat (buffer_end - p) < fuel)%nat ->
  terminates (parse_headers_loop fuel m r p buffer_end).
Proof.
  revert m r p. induction fuel as [|fuel IH]; intros m r p Hfuel; [lia|].
  simpl.
  apply terminates_bind; [apply terminates_load | intros c _].
  destruct (Ascii.eqb c NUL); [apply terminates_Ok|].
  destruct (Z.geb_spec (p + 4) buffer_end); [apply terminates_Ok|].
  apply terminates_bind; [apply terminates_header_line|].
  intros [[m1 r1] [q|]] Hline; [|discriminate].
  apply header_line_inv in Hline as (_ & Hq & _).
  specialize (Hq q eq_refl). apply IH. lia.
Qed.

Lemma terminates_parse_headers (m : mem) (r : lwan_request_t)
    (buffer buffer_end : Z) :
  terminates (_parse_headers m r buffer buffer_end).
Proof.
  unfold _parse_headers. apply terminates_parse_headers_loop. lia.
Qed.

(** ** The request line, from the entry point *)

Section RequestLine.

Variable lookup : list ascii -> option lwan_url_map_t.
Variable stack : mem.
Hypothesis stack_size : length stack = Z.to_nat sizeof_buffer.

Variables ws rest : list ascii.
Variable verb : lwan_http_method_t.
Variable skipped : ascii.
Hypothesis ws_whitespace : forallb is_whitespace ws = true.

Let data : list ascii := ws ++ method_token verb skipped ++ rest.
Let line_start : Z := Z.of_nat (length (ws ++ method_token verb skipped)).

Hypothesis data_fits : Z.of_nat (length data) < sizeof_buffer.

Lemma data_not_empty : 0 < Z.of_nat (length data).
Proof.
  subst data. rewrite !length_app. destruct verb; simpl; lia.
Qed.

(** A request line that [_identify_http_path] rejects is answered with
    BAD_REQUEST. *)
Lemma process_request_bad_line (request r' : lwan_request_t) (m' : mem) :
  _identify_http_path (terminated stack data) (set_method verb request)
    line_start (Z.of_nat (length data)) = Ok ((m', r'), None) ->
  lwan_process_request lookup stack (ReadBytes data) request
  = Ok (DefaultResponse HTTP_BAD_REQUEST r' m').
Proof.
  intros H.
  rewrite process_request_stages by (auto using data_not_empty).
  subst data line_start.
  rewrite parse_stages_method by exact ws_whitespace.
  unfold stages_after_method. rewrite H. reflexivity.
Qed.

(** After a request line that [_identify_http_path] accepts, whatever the
    entry point answers carries the version that was read there. *)
Lemma process_request_good_line (request r' : lwan_request_t) (m' : mem)
    (q : Z) (o : outcome) :
  _identify_http_path (terminated stack data) (set_method verb request)
    line_start (Z.of_nat (length data)) = Ok ((m', r'), Some q) ->
  lwan_process_request lookup stack (ReadBytes data) request = Ok o ->
  exists r'', outcome_request o = Some r'' /\
              http_version r'' = http_version r' /\
              method r'' = method r'.
Proof.
  intros H.
  rewrite process_request_stages by (auto using data_not_empty).
  subst data line_start.
  rewrite parse_stages_method by exact ws_whitespace.
  unfold stages_after_method. rewrite H. cbn [bind]. intros Ho.
  destruct (_parse_headers m' r' q _) as [[[m3 r3] q3]|] eqn:E;
    [|discriminate Ho].
  unfold _parse_headers in E.
  apply parse_headers_loop_inv in E as E'. destruct E' as (_ & oc & Hu).
  specialize (Hu r'). rewrite E in Hu. inversion Hu as [Hr3]. clear Hu.
  cbn [bind] in Ho.
  assert (Hv : http_version (_compute_flags r3) = http_version r' /\
               method (_compute_flags r3) = method r').
  { rewrite Hr3. unfold _compute_flags.
    destruct (http_version (assign (assign_connection oc) r'));
      split; reflexivity. }
  destruct q3 as [q3|]; cbn [bind] in Ho.
  - destruct (cstring m3 (url (_compute_flags r3))) as [path|];
      [|discriminate Ho].
    cbn [bind] in Ho. destruct (lookup path); inversion Ho; subst o;
      eexists; (split; [reflexivity|exact Hv]).
  - inversion Ho; subst o. eexists. split; [reflexivity|].
    rewrite Hr3. split; reflexivity.
Qed.

End RequestLine.

Lemma terminated_line (stack : mem) (pre u sfx rest : list ascii) :
  terminated stack (pre ++ u ++ sfx ++ CR :: rest)
  = pre ++ u ++ sfx ++ CR ::
      (rest ++ NUL ::
         drop (S (length (pre ++ u ++ sfx ++ CR :: rest))) stack).
Proof. unfold terminated. rewrite <- !app_assoc. reflexivity. Qed.

(** C6. When the byte at the place of the major digit (the third byte before
    the carriage return) is not '1', the entry point answers BAD_REQUEST, in
    particular for a line ending in HTTP/2.0; when it is '1' and the line is
    accepted, a minor digit '0' gives HTTP_1_0 and any other gives HTTP_1_1,
    in the request-line parser's result and in whatever the entry point then
    answers. *)
Theorem version_digits_decide
    (lookup : list ascii -> option lwan_url_map_t) (stack : mem)
    (ws u rest : list ascii) (verb : lwan_http_method_t) (skipped : ascii)
    (s0 s1 s2 s3 s4 s5 major s7 minor : ascii) (request : lwan_request_t) :
  let line := u ++ [s0; s1; s2; s3; s4; s5; major; s7; minor] in
  let data := ws ++ method_token verb skipped ++ line ++ CR :: rest in
  let version := if Ascii.eqb minor "0" then HTTP_1_0 else HTTP_1_1 in
  length stack = Z.to_nat sizeof_buffer ->
  forallb is_whitespace ws = true ->
  no_byte CR line = true ->
  Z.of_nat (length data) < sizeof_buffer ->
  (major <> "1"%char ->
   exists m',
     lwan_process_request lookup stack (ReadBytes data) request
     = Ok (DefaultResponse HTTP_BAD_REQUEST (set_method verb request) m'))
  /\
  (major = "1"%char -> s1 = "H"%char -> hd_error u = Some "/"%char ->
   (exists m' r' q,
      _identify_http_path (terminated stack data) (set_method verb request)
        (Z.of_nat (length (ws ++ method_token verb skipped)))
        (Z.of_nat (length data)) = Ok ((m', r'), Some q)
      /\ http_version r' = version)
   /\
   (forall o,
      lwan_process_request lookup stack (ReadBytes data) request = Ok o ->
      exists r', outcome_request o = Some r' /\ http_version r' = version)).
Proof.
  intros line data version Hstack Hws Hcr Hfit.
  assert (Hlimit : Z.of_nat (length u) + 9 < Z.of_nat (length data)).
  { subst data line. rewrite !length_app. simpl. lia. }
  pose proof (identify_http_path_long_line
                (ws ++ method_token verb skipped) u
                (rest ++ NUL :: drop (S (length data)) stack)
                s0 s1 s2 s3 s4 s5 major s7 minor
                (set_method verb request) (Z.of_nat (length data))
                Hcr Hlimit) as Hpath.
  cbv zeta in Hpath.
  assert (Hterm : terminated stack data
                  = (ws ++ method_token verb skipped) ++ u ++
                    [s0; s1; s2; s3; s4; s5; major; s7; minor] ++ CR ::
                    (rest ++ NUL :: drop (S (length data)) stack)).
  { subst data line. rewrite <- !app_assoc.
    rewrite (app_assoc ws), terminated_line. rewrite <- !app_assoc.
    reflexivity. }
  rewrite <- Hterm in Hpath.
  assert (Hdata : data = ws ++ method_token verb skipped ++
                         (line ++ CR :: rest)) by reflexivity.
  split.
  - intros Hmajor.
    destruct (negb (Ascii.eqb s1 "H")); [|
      destruct (Ascii.eqb_spec major "1"); [contradiction|] ];
      eexists; rewrite Hdata;
      apply process_request_bad_line; auto; rewrite <- Hdata; exact Hpath.
  - intros -> -> Hu.
    destruct u as [|c u']; [discriminate Hu|]. inversion Hu; subst c.
    simpl in Hpath.
    split.
    + do 3 eexists. split; [exact Hpath|]. reflexivity.
    + intros o Ho. rewrite Hdata in Ho.
      eapply process_request_good_line in Ho;
        [| exact Hstack | exact Hws | rewrite <- Hdata; exact Hfit
         | rewrite <- Hdata; exact Hpath].
      destruct Ho as (r'' & Hr & Hv & _). exists r''. split; [exact Hr|].
      rewrite Hv. reflexivity.
Qed.

Lemma version_digits_decide_witness :
  exists m',
    lwan_process_request no_routes sample_stack
      (ReadBytes (chars "GET / HTTP/2.0" ++ CRLF ++ CRLF)) sample_request
    = Ok (DefaultResponse HTTP_BAD_REQUEST
            (set_method HTTP_GET sample_request) m').
Proof.
  refine (proj1 (version_digits_decide no_routes sample_stack [] (chars "/")
                   (LF :: CRLF) HTTP_GET NUL " " "H" "T" "T" "P" "/" "2" "."
                   "0" sample_request _ _ _ _) _).
  - reflexivity.
  - reflexivity.
  - reflexivity.
  - reflexivity.
  - discriminate.
Defined.

(** C9. A request line of the shape [<url> HTTP/1.<minor>] whose url is empty
    or does not begin with '/' is answered with BAD_REQUEST; and whenever the
    parse stages succeed, the byte at [url] is '/' and [url_len] is below
    the number of bytes read. *)
Theorem url_must_start_with_slash
    (lookup : list ascii -> option lwan_url_map_t) (stack : mem)
    (ws u rest : list ascii) (verb : lwan_http_method_t)
    (skipped minor : ascii) (request : lwan_request_t) :
  let line := u ++ chars " HTTP/1." ++ [minor] in
  let data := ws ++ method_token verb skipped ++ line ++ CR :: rest in
  length stack = Z.to_nat sizeof_buffer ->
  forallb is_whitespace ws = true ->
  no_byte CR line = true ->
  Z.of_nat (length data) < sizeof_buffer ->
  (hd_error u <> Some "/"%char ->
   exists m' r',
     lwan_process_request lookup stack (ReadBytes data) request
     = Ok (DefaultResponse HTTP_BAD_REQUEST r' m'))
  /\
  (forall (m m' : mem) (r r' : lwan_request_t) (bytes_read : Z),
     parse_stages m r bytes_read = Ok ((m', r'), None) ->
     load m' (url r') = Ok "/"%char /\ url_len r' < bytes_read).
Proof.
  intros line data Hstack Hws Hcr Hfit. split.
  - intros Hu.
    set (sfx := [" "; "H"; "T"; "T"; "P"; "/"; "1"; "."; minor]%char).
    change line with (u ++ sfx) in *.
    assert (Hlimit : Z.of_nat (length u) + 9 < Z.of_nat (length data)).
    { subst data. rewrite !length_app. simpl. lia. }
    pose proof (identify_http_path_long_line
                  (ws ++ method_token verb skipped) u
                  (rest ++ NUL :: drop (S (length data)) stack)
                  " " "H" "T" "T" "P" "/" "1" "." minor
                  (set_method verb request) (Z.of_nat (length data))
                  Hcr Hlimit) as Hpath.
    cbv zeta in Hpath. fold sfx in Hpath.
    assert (Hterm : terminated stack data
                    = (ws ++ method_token verb skipped) ++ u ++ sfx
                      ++ CR :: (rest ++ NUL :: drop (S (length data)) stack)).
    { subst data. rewrite <- !app_assoc.
      rewrite (app_assoc ws), terminated_line. rewrite <- !app_assoc.
      reflexivity. }
    rewrite <- Hterm in Hpath.
    assert (Hdata : data = ws ++ method_token verb skipped ++
                           ((u ++ sfx) ++ CR :: rest)) by reflexivity.
    assert (Hfirst : Ascii.eqb (hd NUL (u ++ [NUL])) "/" = false).
    { destruct u as [|c u']; [reflexivity|]. simpl.
      apply Ascii.eqb_neq. intros ->. apply Hu. reflexivity. }
    simpl in Hpath. rewrite Hfirst in Hpath. simpl in Hpath.
    do 2 eexists. rewrite Hdata.
    apply process_request_bad_line; auto. rewrite <- Hdata. exact Hpath.
  - intros m m' r r' bytes_read H.
    apply parse_stages_inv in H as (_ & _ & Hs).
    destruct (Hs eq_refl) as [Hlen Hslash]. split; assumption.
Qed.

Lemma url_must_start_with_slash_witness :
  exists m' r',
    lwan_process_request no_routes sample_stack
      (ReadBytes (chars "GET index.html HTTP/1.1" ++ CRLF ++ CRLF))
      sample_request
    = Ok (DefaultResponse HTTP_BAD_REQUEST r' m').
Proof.
  refine (proj1 (url_must_start_with_slash no_routes sample_stack []
                   (chars "index.html") (LF :: CRLF) HTTP_GET NUL "1"
                   sample_request _ _ _ _) _).
  - reflexivity.
  - reflexivity.
  - reflexivity.
  - reflexivity.
  - discriminate.
Defined.

(** C1. No length check precedes the step back from the carriage return:
    when the carriage return that ends the request line is among the first
    eight bytes of the buffer (as in "GET /" CR LF), the request-line parser
    reads [*(space + 1)] below the start of the array. *)
Theorem short_request_line_reads_below_buffer
    (lookup : list ascii -> option lwan_url_map_t) (stack : mem)
    (ws line rest : list ascii) (verb : lwan_http_method_t) (skipped : ascii)
    (request : lwan_request_t) :
  let before_cr := ws ++ method_token verb skipped ++ line in
  let data := ws ++ method_token verb skipped ++ line ++ CR :: rest in
  length stack = Z.to_nat sizeof_buffer ->
  forallb is_whitespace ws = true ->
  no_byte CR line = true ->
  Z.of_nat (length data) < sizeof_buffer ->
  Z.of_nat (length before_cr) < 8 ->
  lwan_process_request lookup stack (ReadBytes data) request
  = Fault (OutOfBounds (Z.of_nat (length before_cr) - 8)).
Proof.
  intros before_cr data Hstack Hws Hcr Hfit Hshort.
  assert (Hdata : 0 < Z.of_nat (length data)).
  { subst data. rewrite !length_app. destruct verb; simpl; lia. }
  rewrite process_request_stages by auto.
  subst data. rewrite parse_stages_method by exact Hws.
  unfold stages_after_method, _identify_http_path, memchr, sizeof_HTTP_X_X.
  destruct (Z.ltb_spec (Z.of_nat (length (ws ++ method_token verb skipped))) 0);
    [lia|].
  unfold terminated. rewrite <- !app_assoc. rewrite (app_assoc ws).
  rewrite <- (app_comm_cons rest _ CR).
  walk_drop.
  rewrite memchr_scan_app;
    [| exact Hcr | rewrite Nat2Z.id, !length_app; simpl; lia].
  cbn [bind]. walk_store. cbn [bind].
  unfold load at 1.
  replace (Z.of_nat (length (ws ++ method_token verb skipped))
           + Z.of_nat (length line) - 9 + 1)
    with (Z.of_nat (length before_cr) - 8)
    by (subst before_cr; rewrite !length_app; lia).
  destruct (Z.ltb_spec (Z.of_nat (length before_cr) - 8) 0); [|lia].
  reflexivity.
Qed.

Lemma short_request_line_reads_below_buffer_witness :
  lwan_process_request no_routes sample_stack
    (ReadBytes (chars "GET /" ++ CRLF)) sample_request
  = Fault (OutOfBounds (-3)).
Proof.
  apply (short_request_line_reads_below_buffer no_routes sample_stack []
           (chars "/") [LF] HTTP_GET NUL sample_request).
  - reflexivity.
  - reflexivity.
  - reflexivity.
  - reflexivity.
  - reflexivity.
Defined.

(** ** The byte after HEAD *)

(** [_identify_http_method] compares four bytes and skips five for HEAD, so
    the byte after "HEAD" is not looked at; when it is 'H' the request line
    "/xxx1xx" passes the checks of [_identify_http_path] with [space] two
    bytes before the start of the line, and the pointer difference stored in
    [url_len] is negative. *)
Lemma byte_after_HEAD_is_not_checked :
  exists m' r',
    parse_stages (terminated sample_stack (chars "HEADH/xxx1xx" ++ CRLF))
      sample_request 14 = Ok ((m', r'), None)
    /\ method r' = HTTP_HEAD /\ url r' = 5 /\ url_len r' = -2
    /\ cstring m' (url r') = Ok (chars "/xxx1xx").
Proof.
  let v := eval vm_compute in
             (parse_stages
                (terminated sample_stack (chars "HEADH/xxx1xx" ++ CRLF))
                sample_request 14)
  in match v with
     | Ok ((?m1, ?r1), _) => exists m1, r1
     end.
  vm_compute. auto.
Qed.

(** ** Bytes beyond the bytes read *)

(** [_identify_http_path] is given [bytes_read] as the limit of [memchr]
    although the search starts after the method token, so the search runs up
    to four or five bytes past the bytes read and their terminator, into what
    the array held before.  On the truncated request "GET / HTTP/1", which has
    no carriage return, the verdict depends on those bytes. *)
Lemma request_line_search_runs_past_the_bytes_read :
  length sample_stack = Z.to_nat sizeof_buffer /\
  length stack_with_cr_at_14 = Z.to_nat sizeof_buffer /\
  (exists r m,
     lwan_process_request no_routes sample_stack
       (ReadBytes (chars "GET / HTTP/1")) sample_request
     = Ok (DefaultResponse HTTP_BAD_REQUEST r m)) /\
  (exists r m,
     lwan_process_request no_routes stack_with_cr_at_14
       (ReadBytes (chars "GET / HTTP/1")) sample_request
     = Ok (DefaultResponse HTTP_NOT_FOUND r m)
     /\ url r = 4 /\ url_len r = 1 /\ http_version r = HTTP_1_1).
Proof.
  split; [reflexivity|]. split; [reflexivity|]. split.
  - let v := eval vm_compute in
               (lwan_process_request no_routes sample_stack
                  (ReadBytes (chars "GET / HTTP/1")) sample_request)
    in match v with
       | Ok (DefaultResponse _ ?r ?m) => exists r, m
       end.
    vm_compute. reflexivity.
  - let v := eval vm_compute in
               (lwan_process_request no_routes stack_with_cr_at_14
                  (ReadBytes (chars "GET / HTTP/1")) sample_request)
    in match v with
       | Ok (DefaultResponse _ ?r ?m) => exists r, m
       end.
    vm_compute. auto.
Qed.

(** ** Recognised headers *)



Lemma STRING_SWITCH_reads (pre rest : list ascii) (a b c d : ascii) :
  STRING_SWITCH (pre ++ a :: b :: c :: d :: rest) (Z.of_nat (length pre))
  = Ok (MULTICHAR_CONSTANT a b c d).
Proof.
  unfold STRING_SWITCH. do 4 (walk_load; cbn [bind]). reflexivity.
Qed.

(** The first four bytes of a name as long as [hdr] that starts like it. *)
Lemma name_prefix (hdr : string) (nm : list ascii) :
  In hdr allow_list ->
  length nm = String.length hdr -> take 4 nm = take 4 (chars hdr) ->
  exists a b c d nm',
    nm = a :: b :: c :: d :: nm' /\ take 4 (chars hdr) = [a; b; c; d].
Proof.
  intros Hin Hlen Htake.
  assert (H4 : (4 <= length nm)%nat).
  { rewrite Hlen. simpl in Hin.
    repeat (destruct Hin as [<-|Hin]; [simpl; lia|]). contradiction. }
  destruct nm as [|a [|b [|c [|d nm']]]]; simpl in H4; try lia.
  exists a, b, c, d, nm'. split; [reflexivity|]. rewrite <- Htake.
  reflexivity.
Qed.




(** ** Recognised names followed by something else *)

Lemma strchr_scan_terminated (c : ascii) (a b : list ascii) (p : Z) :
  no_byte c a = true -> no_byte NUL a = true -> c <> NUL ->
  strchr_scan c (a ++ NUL :: b) p = Ok None.
Proof.
  revert p. induction a as [|x a IH]; intros p Ha Hz Hc.
  - cbn [app strchr_scan].
    destruct (Ascii.eqb_spec NUL c) as [E|_]; [congruence|].
    rewrite Ascii.eqb_refl. reflexivity.
  - apply no_byte_cons in Ha as [Hx Ha].
    apply no_byte_cons in Hz as [Hxz Hz].
    cbn [app strchr_scan]. rewrite Hx, Hxz. apply IH; auto.
Qed.

(** The arm of [hdr] is the one taken when the four bytes at the cursor are
    the first four of [hdr]. *)
Lemma header_line_dispatch (hdr : string) (m : mem) (r : lwan_request_t)
    (p : Z) (a b c d : ascii) :
  In hdr allow_list ->
  take 4 (chars hdr) = [a; b; c; d] ->
  STRING_SWITCH m p = Ok (MULTICHAR_CONSTANT a b c d) ->
  header_line m r p
  = let* '(m1, p1, v) := MATCH_HEADER hdr m p in
    let* r1 :=
      match v with
      | Some value =>
          if String.eqb hdr "Connection"
          then let* c0 := load m1 value in Ok (header_action hdr c0 r)
          else Ok r
      | None => Ok r
      end in
    let* q := strchr m1 p1 LF in
    Ok ((m1, r1), q).
Proof.
  intros Hin H4 Hsw. unfold header_line. rewrite Hsw. cbn [bind].
  simpl in Hin.
  repeat (destruct Hin as [<-|Hin];
    [ simpl in H4; inversion H4; subst a b c d;
      repeat match goal with
             | |- context [MULTICHAR_CONSTANT ?a ?b ?c ?d =? ?k] =>
                 let v := eval vm_compute in (MULTICHAR_CONSTANT a b c d =? k)
                 in change (MULTICHAR_CONSTANT a b c d =? k) with v
             end;
      cbv iota; unfold ignored_header;
      match goal with
      | |- context [MATCH_HEADER ?h m p] =>
          destruct (MATCH_HEADER h m p) as [[[m1 p1] [value|]]|];
            cbn [bind]; try reflexivity;
            simpl String.eqb; cbv iota;
            try (destruct (load m1 value); reflexivity)
      end
    | ]).
  contradiction.
Qed.

(** The cursor and the buffer after [MATCH_HEADER] gives up on the colon. *)
Lemma MATCH_HEADER_no_colon (hdr : string) (pre nm rest : list ascii)
    (x : ascii) :
  length nm = String.length hdr -> x <> ":"%char ->
  MATCH_HEADER hdr (pre ++ nm ++ x :: rest) (Z.of_nat (length pre))
  = Ok (pre ++ nm ++ x :: rest, Z.of_nat (length (pre ++ nm)) + 1, None).
Proof.
  intros Hnm Hx. unfold MATCH_HEADER. rewrite <- Hnm.
  walk_load. cbn [bind].
  destruct (Ascii.eqb_spec x ":"); [contradiction|]. simpl.
  rewrite length_app. do 3 f_equal. lia.
Qed.

(** ... and on the space. *)
Lemma MATCH_HEADER_no_space (hdr : string) (pre nm rest : list ascii)
    (x : ascii) :
  length nm = String.length hdr -> x <> " "%char ->
  MATCH_HEADER hdr (pre ++ nm ++ ":"%char :: x :: rest)
    (Z.of_nat (length pre))
  = Ok (pre ++ nm ++ ":"%char :: x :: rest,
        Z.of_nat (length (pre ++ nm)) + 2, None).
Proof.
  intros Hnm Hx. unfold MATCH_HEADER. rewrite <- Hnm.
  walk_load. cbn [bind]. change (negb (Ascii.eqb ":" ":")) with false.
  cbv iota. walk_load. cbn [bind].
  destruct (Ascii.eqb_spec x " "); [contradiction|]. simpl.
  rewrite length_app. do 3 f_equal. lia.
Qed.

(** ... and on the carriage return, when the value runs into the NUL. *)
Lemma MATCH_HEADER_no_line_end (hdr : string) (pre nm val post : list ascii) :
  length nm = String.length hdr ->
  no_byte CR val = true -> no_byte NUL val = true ->
  MATCH_HEADER hdr (pre ++ nm ++ chars ": " ++ val ++ NUL :: post)
    (Z.of_nat (length pre))
  = Ok (pre ++ nm ++ chars ": " ++ val ++ NUL :: post,
        Z.of_nat (length (pre ++ nm)) + 2, None).
Proof.
  intros Hnm Hcr Hnul. unfold MATCH_HEADER, strchr. rewrite <- Hnm.
  simpl app.
  walk_load. cbn [bind]. change (negb (Ascii.eqb ":" ":")) with false.
  cbv iota. walk_load. cbn [bind].
  change (negb (Ascii.eqb " " " ")) with false. cbv iota.
  destruct (Z.ltb_spec (Z.of_nat (length pre) + Z.of_nat (length nm) + 1 + 1) 0);
    [lia|].
  walk_drop. rewrite strchr_scan_terminated by (auto; discriminate).
  cbn [bind]. rewrite length_app. do 3 f_equal. lia.
Qed.

Section RecognisedName.

Variable hdr : string.
Variables pre nm : list ascii.
Variable r : lwan_request_t.
Variable fuel : nat.
Variable buffer_end : Z.
Hypothesis hdr_listed : In hdr allow_list.
Hypothesis nm_length : length nm = String.length hdr.
Hypothesis nm_first_four : take 4 nm = take 4 (chars hdr).
Hypothesis lookahead : Z.of_nat (length pre) + 4 < buffer_end.

(** One iteration of the loop on a line that starts like [hdr], given what
    [MATCH_HEADER] and the search for the line feed do on it. *)
Lemma loop_on_recognised_name (rest : list ascii) (p1 : Z) (q : option Z) :
  let m := pre ++ nm ++ rest in
  MATCH_HEADER hdr m (Z.of_nat (length pre)) = Ok (m, p1, None) ->
  strchr m p1 LF = Ok q ->
  parse_headers_loop (S fuel) m r (Z.of_nat (length pre)) buffer_end
  = match q with
    | Some q => parse_headers_loop fuel m r (q + 1) buffer_end
    | None => Fault (InvalidPointer 1)
    end.
Proof.
  intros m HM Hq.
  destruct (name_prefix hdr nm hdr_listed nm_length nm_first_four)
    as (a & b & c & d & nm' & Hnm & H4).
  assert (Ha : Ascii.eqb a NUL = false).
  { pose proof hdr_listed as Hin. simpl in Hin.
    repeat (destruct Hin as [<-|Hin];
            [simpl in H4; inversion H4; reflexivity|]).
    contradiction. }
  assert (Hload : load m (Z.of_nat (length pre)) = Ok a).
  { subst m. rewrite Hnm. simpl app. solve_load. }
  assert (Hsw : STRING_SWITCH m (Z.of_nat (length pre))
                = Ok (MULTICHAR_CONSTANT a b c d)).
  { subst m. rewrite Hnm. apply STRING_SWITCH_reads. }
  cbn [parse_headers_loop]. rewrite Hload. cbn [bind]. rewrite Ha.
  destruct (Z.geb_spec (Z.of_nat (length pre) + 4) buffer_end); [lia|].
  rewrite (header_line_dispatch hdr m r _ a b c d hdr_listed H4 Hsw).
  rewrite HM. cbn [bind]. rewrite Hq. cbn [bind]. reflexivity.
Qed.

(** A recognised name not followed by ':' is skipped up to the next line
    feed: nothing is written and no action runs. *)
Lemma name_without_colon_is_skipped (x : ascii) (tail post : list ascii) :
  x <> ":"%char ->
  no_byte LF tail = true -> no_byte NUL tail = true ->
  let m := pre ++ nm ++ x :: tail ++ LF :: post in
  parse_headers_loop (S fuel) m r (Z.of_nat (length pre)) buffer_end
  = parse_headers_loop fuel m r
      (Z.of_nat (length (pre ++ nm ++ x :: tail)) + 1) buffer_end.
Proof.
  intros Hx Hlf Hnul m.
  pose proof (MATCH_HEADER_no_colon hdr pre nm (tail ++ LF :: post) x
                nm_length Hx) as HM.
  assert (Hq : strchr m (Z.of_nat (length (pre ++ nm)) + 1) LF
               = Ok (Some (Z.of_nat (length (pre ++ nm ++ x :: tail))))).
  { subst m. unfold strchr.
    destruct (Z.ltb_spec (Z.of_nat (length (pre ++ nm)) + 1) 0); [lia|].
    rewrite (app_assoc pre nm). walk_drop.
    rewrite strchr_scan_app by assumption. do 2 f_equal.
    rewrite !length_app. simpl. lia. }
  exact (loop_on_recognised_name (x :: tail ++ LF :: post) _ _ HM Hq).
Qed.

(** A recognised name and ':' not followed by ' ' is skipped likewise. *)
Lemma name_without_space_is_skipped (x : ascii) (tail post : list ascii) :
  x <> " "%char ->
  no_byte LF tail = true -> no_byte NUL tail = true ->
  let m := pre ++ nm ++ ":"%char :: x :: tail ++ LF :: post in
  parse_headers_loop (S fuel) m r (Z.of_nat (length pre)) buffer_end
  = parse_headers_loop fuel m r
      (Z.of_nat (length (pre ++ nm ++ ":"%char :: x :: tail)) + 1) buffer_end.
Proof.
  intros Hx Hlf Hnul m.
  pose proof (MATCH_HEADER_no_space hdr pre nm (tail ++ LF :: post) x
                nm_length Hx) as HM.
  assert (Hq : strchr m (Z.of_nat (length (pre ++ nm)) + 2) LF
               = Ok (Some (Z.of_nat
                             (length (pre ++ nm ++ ":"%char :: x :: tail))))).
  { subst m. unfold strchr.
    destruct (Z.ltb_spec (Z.of_nat (length (pre ++ nm)) + 2) 0); [lia|].
    rewrite (app_assoc pre nm). walk_drop.
    rewrite strchr_scan_app by assumption. do 2 f_equal.
    rewrite !length_app. simpl. lia. }
  exact (loop_on_recognised_name (":"%char :: x :: tail ++ LF :: post)
           _ _ HM Hq).
Qed.

(** A recognised header whose value runs into the terminating NUL, with
    neither carriage return nor line feed, ends the loop in a fault. *)
Lemma header_cut_off_faults (val post : list ascii) :
  no_byte CR val = true -> no_byte LF val = true ->
  no_byte NUL val = true ->
  parse_headers_loop (S fuel) (pre ++ nm ++ chars ": " ++ val ++ NUL :: post)
    r (Z.of_nat (length pre)) buffer_end
  = Fault (InvalidPointer 1).
Proof.
  intros Hcr Hlf Hnul.
  pose proof (MATCH_HEADER_no_line_end hdr pre nm val post nm_length Hcr
                Hnul) as HM.
  assert (Hq : strchr (pre ++ nm ++ chars ": " ++ val ++ NUL :: post)
                 (Z.of_nat (length (pre ++ nm)) + 2) LF = Ok None).
  { unfold strchr.
    destruct (Z.ltb_spec (Z.of_nat (length (pre ++ nm)) + 2) 0); [lia|].
    rewrite (app_assoc pre nm). simpl app. walk_drop.
    apply strchr_scan_terminated; [assumption | assumption | discriminate]. }
  exact (loop_on_recognised_name (chars ": " ++ val ++ NUL :: post)
           _ _ HM Hq).
Qed.

End RecognisedName.

(** C5. A recognised header that is cut off before its line ends makes
    [strchr] return NULL; the loop increment turns that into the address 1
    and the loop condition dereferences it. *)
Theorem header_without_line_end_faults
    (lookup : list ascii -> option lwan_url_map_t) (stack : mem)
    (request : lwan_request_t) :
  length stack = Z.to_nat sizeof_buffer ->
  lwan_process_request lookup stack
    (ReadBytes (chars "GET / HTTP/1.1" ++ CRLF ++ chars "Connection: close"))
    request
  = Fault (InvalidPointer 1).
Proof.
  intros Hlen. eval_process Hlen. reflexivity.
Qed.

Lemma header_without_line_end_faults_witness :
  lwan_process_request no_routes sample_stack
    (ReadBytes (chars "GET / HTTP/1.1" ++ CRLF ++ chars "Connection: close"))
    sample_request
  = Fault (InvalidPointer 1).
Proof.
  apply (header_without_line_end_faults no_routes sample_stack sample_request).
  reflexivity.
Defined.

(** ** Routing *)

(** Whenever a route is found, the request handed on is the parsed one with
    [url] advanced by the prefix length and every other field, [url_len]
    included, as the parse stages left it. *)
Lemma routing_advances_url_only
    (lookup : list ascii -> option lwan_url_map_t) (stack : mem)
    (rd : read_result) (request r' : lwan_request_t) (m' : mem)
    (url_map : lwan_url_map_t) :
  lwan_process_request lookup stack rd request
  = Ok (Response url_map r' m') ->
  exists m r bytes_read path,
    parse_stages m request bytes_read = Ok ((m', r), None) /\
    cstring m' (url r) = Ok path /\
    lookup path = Some url_map /\
    r' = set_url (url r + prefix_len url_map) r /\
    url_len r' = url_len r.
Proof.
  unfold lwan_process_request. intros H.
  destruct rd as [|data]; [discriminate H|].
  destruct (_ =? 0); [discriminate H|].
  destruct (_ =? sizeof_buffer); [discriminate H|].
  destruct (store _ _ NUL) as [m|]; [|discriminate H]. cbn [bind] in H.
  destruct (parse_stages m request _) as [[[m1 r1] failed]|] eqn:E;
    [|discriminate H].
  cbn [bind] in H. destruct failed as [status|]; [discriminate H|].
  destruct (cstring m1 (url r1)) as [path|] eqn:Ep; [|discriminate H].
  cbn [bind] in H. destruct (lookup path) as [um|] eqn:El; [|discriminate H].
  inversion H; subst. eexists m, r1, _, path.
  repeat split; eauto.
Qed.

(** C7. With the route "/hello" and the request "GET /hello/world HTTP/1.1",
    the handler is reached with [url] advanced by the six bytes of the prefix,
    so that it reads "/world", while [url_len] is still 12, the length of
    "/hello/world". *)
Theorem route_prefix_not_taken_off_url_len (stack : mem)
    (request : lwan_request_t) :
  length stack = Z.to_nat sizeof_buffer ->
  exists r' m',
    lwan_process_request hello_route stack
      (ReadBytes (chars "GET /hello/world HTTP/1.1" ++ CRLF ++ CRLF)) request
    = Ok (Response {| prefix_len := 6; callback := 0 |} r' m')
    /\ url r' = 4 + 6
    /\ cstring m' (url r') = Ok (chars "/world")
    /\ url_len r' = 12.
Proof.
  intros Hlen. eval_process Hlen.
  do 2 eexists. split; [reflexivity|]. vm_compute. auto.
Qed.

Lemma route_prefix_not_taken_off_url_len_witness :
  exists r' m',
    lwan_process_request hello_route sample_stack
      (ReadBytes (chars "GET /hello/world HTTP/1.1" ++ CRLF ++ CRLF))
      sample_request
    = Ok (Response {| prefix_len := 6; callback := 0 |} r' m')
    /\ url r' = 4 + 6
    /\ cstring m' (url r') = Ok (chars "/world")
    /\ url_len r' = 12.
Proof.
  apply (route_prefix_not_taken_off_url_len sample_stack sample_request).
  reflexivity.
Defined.

(** ** Flags *)

(** C2. The keep-alive flag is true exactly when the version is HTTP_1_1 and
    the cached Connection byte is not 'c', or the version is HTTP_1_0 and the
    byte is 'k'; with no Connection byte cached (zero), HTTP_1_1 gives true
    and HTTP_1_0 false.  [_compute_flags] is a total function and changes no
    other field. *)
Theorem keep_alive_truth_table (request : lwan_request_t) :
  (flags_is_keep_alive (_compute_flags request) = true <->
   (http_version request = HTTP_1_1 /\ header_connection request <> "c"%char)
   \/ (http_version request = HTTP_1_0 /\ header_connection request = "k"%char))
  /\
  (flags_is_keep_alive (_compute_flags request) = false <->
   (http_version request = HTTP_1_1 /\ header_connection request = "c"%char)
   \/ (http_version request = HTTP_1_0 /\ header_connection request <> "k"%char))
  /\
  (let at_version v c :=
     flags_is_keep_alive
       (_compute_flags (set_header_connection c (set_http_version v request)))
   in
   at_version HTTP_1_1 NUL = true /\ at_version HTTP_1_1 "c"%char = false /\
   at_version HTTP_1_0 NUL = false /\ at_version HTTP_1_0 "k"%char = true)
  /\
  _compute_flags request
  = set_is_keep_alive (flags_is_keep_alive (_compute_flags request)) request.
Proof.
  destruct request as [mt v u ul c k rsp]. unfold _compute_flags. simpl.
  repeat split.
  - destruct v; simpl.
    + intros H. right. split; [reflexivity|]. apply Ascii.eqb_eq. exact H.
    + intros H. left. split; [reflexivity|]. apply Ascii.eqb_neq.
      apply negb_true_iff. exact H.
  - intros [[-> H]|[-> H]]; simpl.
    + apply negb_true_iff. apply Ascii.eqb_neq. exact H.
    + apply Ascii.eqb_eq. exact H.
  - destruct v; simpl.
    + intros H. right. split; [reflexivity|]. apply Ascii.eqb_neq. exact H.
    + intros H. left. split; [reflexivity|]. apply Ascii.eqb_eq.
      apply negb_false_iff. exact H.
  - intros [[-> H]|[-> H]]; simpl.
    + apply negb_false_iff. apply Ascii.eqb_eq. exact H.
    + apply Ascii.eqb_neq. exact H.
  - destruct v; reflexivity.
Qed.

(** ** The read *)

(** C8. When the read fills the array, the entry point answers TOO_LARGE
    whatever the bytes are; the request and the buffer reach the default
    response as the read left them, so no parse stage has run. *)
Theorem full_buffer_is_too_large
    (lookup : list ascii -> option lwan_url_map_t) (stack : mem)
    (data : list ascii) (request : lwan_request_t) :
  length stack = Z.to_nat sizeof_buffer ->
  Z.of_nat (length data) = sizeof_buffer ->
  lwan_process_request lookup stack (ReadBytes data) request
  = Ok (DefaultResponse HTTP_TOO_LARGE request data).
Proof.
  intros Hstack Hdata. unfold lwan_process_request.
  destruct (read_into_short stack data) as [-> ->]; [lia|].
  rewrite Hdata. change (sizeof_buffer =? 0) with false.
  rewrite Z.eqb_refl. cbv iota.
  rewrite drop_ge by lia. rewrite app_nil_r. reflexivity.
Qed.

Lemma full_buffer_is_too_large_witness :
  lwan_process_request no_routes sample_stack
    (ReadBytes (get_root ++ repeat "x"%char (Z.to_nat sizeof_buffer - 18)))
    sample_request
  = Ok (DefaultResponse HTTP_TOO_LARGE sample_request
          (get_root ++ repeat "x"%char (Z.to_nat sizeof_buffer - 18))).
Proof.
  apply (full_buffer_is_too_large no_routes sample_stack
           (get_root ++ repeat "x"%char (Z.to_nat sizeof_buffer - 18))
           sample_request).
  - reflexivity.
  - reflexivity.
Defined.

(** ** Parsing twice *)

(** C4, as stated, fails: the first parse of "GET / HTTP/1.1" succeeds and
    leaves NULs in the buffer; run again over that buffer, the parse stages
    end in BAD_REQUEST. *)
Lemma second_parse_of_same_buffer_differs :
  exists m1 r1 m2 r2,
    parse_stages (terminated sample_stack get_root) sample_request 18
    = Ok ((m1, r1), None)
    /\ parse_stages m1 r1 18 = Ok ((m2, r2), Some HTTP_BAD_REQUEST).
Proof.
  let v := eval vm_compute in
             (parse_stages (terminated sample_stack get_root) sample_request 18)
  in match v with
     | Ok ((?m1, ?r1), _) =>
         exists m1, r1;
         let w := eval vm_compute in (parse_stages m1 r1 18) in
         match w with
         | Ok ((?m2, ?r2), _) => exists m2, r2
         end
     end.
  split; vm_compute; reflexivity.
Qed.

(** C4, amended. Parsing the same bytes again from a fresh copy of the
    buffer, starting from the request the first parse left, gives the same
    buffer, the same request and the same verdict; the buffer the parse
    leaves differs from the one it was given only by bytes overwritten with
    NUL. *)
Theorem parse_again_from_fresh_copy (m m' : mem) (r r' : lwan_request_t)
    (bytes_read : Z) (failed : option lwan_http_status_t) :
  parse_stages m r bytes_read = Ok ((m', r'), failed) ->
  parse_stages m r' bytes_read = Ok ((m', r'), failed) /\ nul_writes m m'.
Proof.
  intros H. destruct (parse_stages_inv _ _ _ _ _ _ H) as (Hw & [a Hu] & _).
  split; [|exact Hw].
  assert (Hr : r' = finish failed (assign a r)).
  { specialize (Hu r). rewrite H in Hu. inversion Hu. reflexivity. }
  rewrite Hu. rewrite Hr at 2. rewrite Hr, finish_assign. reflexivity.
Qed.

Lemma parse_again_from_fresh_copy_witness :
  exists m' r',
    parse_stages (terminated sample_stack get_root) sample_request 18
    = Ok ((m', r'), None)
    /\ parse_stages (terminated sample_stack get_root) r' 18
       = Ok ((m', r'), None)
    /\ nul_writes (terminated sample_stack get_root) m'.
Proof.
  let v := eval vm_compute in
             (parse_stages (terminated sample_stack get_root) sample_request 18)
  in match v with
     | Ok ((?m1, ?r1), _) =>
         exists m1, r1;
         assert (H : parse_stages (terminated sample_stack get_root)
                       sample_request 18 = Ok ((m1, r1), None))
           by (vm_compute; reflexivity)
     end.
  split; [exact H|].
  exact (parse_again_from_fresh_copy _ _ _ _ _ _ H).
Defined.

(** ** The encoder *)

Lemma store_overwrite (w : list ascii) (h : mem) (x : ascii) :
  (length w < length h)%nat ->
  store (overwrite w h) (Z.of_nat (length w)) x = Ok (overwrite (w ++ [x]) h).
Proof.
  intros Hroom. unfold overwrite.
  destruct (drop (length w) h) as [|c tl] eqn:E.
  { apply (f_equal length) in E. rewrite length_drop in E. simpl in E. lia. }
  rewrite length_app. simpl length.
  replace (drop (length w + 1) h) with tl.
  - rewrite <- app_assoc. simpl app. solve_store.
  - rewrite <- drop_drop, E. reflexivity.
Qed.

Lemma memcpy_overwrite (src : list ascii) (len : nat) (w : list ascii)
    (h : mem) :
  (len <= length src)%nat -> (length w + len <= length h)%nat ->
  memcpy (overwrite w h) (Z.of_nat (length w)) src len
  = Ok (overwrite (w ++ take len src) h).
Proof.
  revert src w. induction len as [|len IH]; intros src w Hsrc Hroom.
  - simpl. rewrite take_0, app_nil_r. reflexivity.
  - destruct src as [|x src]; [simpl in Hsrc; lia|]. simpl.
    rewrite store_overwrite by lia. cbn [bind].
    replace (Z.of_nat (length w) + 1) with (Z.of_nat (length (w ++ [x])))
      by (rewrite length_app; simpl; lia).
    rewrite IH.
    + rewrite <- app_assoc. reflexivity.
    + simpl in Hsrc. lia.
    + rewrite length_app. simpl. lia.
Qed.

Lemma APPEND_STRING_LEN_appended (s : list ascii) (len : Z) (w : list ascii)
    (h : mem) :
  0 <= len <= Z.of_nat (length s) ->
  Z.of_nat (length w) + len <= Z.of_nat (length h) ->
  APPEND_STRING_LEN s len (appended w h)
  = Ok (appended (w ++ take (Z.to_nat len) s) h).
Proof.
  intros Hlen Hroom. unfold APPEND_STRING_LEN, appended.
  rewrite memcpy_overwrite by lia. cbn [bind]. f_equal. f_equal.
  rewrite length_app, length_take. lia.
Qed.

Lemma APPEND_CONSTANT_appended (s w : list ascii) (h : mem) :
  Z.of_nat (length w) + Z.of_nat (length s) <= Z.of_nat (length h) ->
  APPEND_CONSTANT s (appended w h) = Ok (appended (w ++ s) h).
Proof.
  intros Hroom. unfold APPEND_CONSTANT.
  rewrite APPEND_STRING_LEN_appended by lia.
  rewrite Nat2Z.id, take_ge by lia. reflexivity.
Qed.

Lemma APPEND_CHAR_appended (c : ascii) (w : list ascii) (h : mem) :
  Z.of_nat (length w) + 1 <= Z.of_nat (length h) ->
  APPEND_CHAR c (appended w h) = Ok (appended (w ++ [c]) h).
Proof.
  intros Hroom. unfold APPEND_CHAR, appended.
  rewrite store_overwrite by lia. cbn [bind]. f_equal. f_equal.
  rewrite length_app. simpl. lia.
Qed.

(** C3. For an HTTP/1.1 keep-alive request whose response has content length
    42, type text/plain and no extra header, and with "OK" as the reason
    phrase of 200, encoding status 200 writes the block
    "HTTP/1.1 200 OK", "Content-Length: 42", "Content-Type: text/plain",
    "Connection: Keep-Alive", "Server: lwan" (each followed by CR LF), a
    final CR LF and one NUL at the start of the caller's buffer, leaves the
    rest of the buffer as it was, and returns the length of the block
    without the NUL. *)
Theorem response_header_round_trip
    (lwan_http_status_as_string : lwan_http_status_t -> list ascii)
    (request : lwan_request_t) (headers : mem) :
  lwan_http_status_as_string HTTP_OK = chars "OK" ->
  http_version request = HTTP_1_1 ->
  flags_is_keep_alive request = true ->
  content_length (response request) = 42 ->
  mime_type (response request) = chars "text/plain" ->
  no_extra_headers request ->
  (length ok_42_text_plain_block < length headers)%nat ->
  lwan_prepare_response_header lwan_http_status_as_string request HTTP_OK
    headers
  = Ok (Z.of_nat (length ok_42_text_plain_block),
        ok_42_text_plain_block ++ NUL ::
          drop (S (length ok_42_text_plain_block)) headers).
Proof.
  intros Hphrase Hversion Hkeep Hlength Hmime Hextra Hroom.
  change (length ok_42_text_plain_block) with 103%nat in *.
  unfold lwan_prepare_response_header.
  rewrite Hphrase, Hversion, Hkeep, Hlength, Hmime.
  change (headers, 0) with (appended [] headers).
  rewrite APPEND_CONSTANT_appended by (simpl; lia). cbn [bind].
  rewrite APPEND_STRING_LEN_appended by (simpl; lia). cbn [bind].
  rewrite APPEND_CHAR_appended by (simpl; lia). cbn [bind].
  unfold APPEND_INT8.
  change (digit (Z.rem (Z.quot (status_value HTTP_OK) 100) 10))
    with (Ok "2"%char : result ascii).
  change (digit (Z.rem (Z.quot (status_value HTTP_OK) 10) 10))
    with (Ok "0"%char : result ascii).
  change (digit (Z.rem (status_value HTTP_OK) 10))
    with (Ok "0"%char : result ascii).
  cbn [bind].
  do 3 (rewrite APPEND_CHAR_appended by (simpl; lia); cbn [bind]).
  rewrite APPEND_CHAR_appended by (simpl; lia). cbn [bind].
  unfold APPEND_STRING.
  rewrite APPEND_STRING_LEN_appended by (simpl; lia). cbn [bind].
  rewrite APPEND_CONSTANT_appended by (simpl; lia). cbn [bind].
  unfold APPEND_INT.
  rewrite APPEND_STRING_LEN_appended by (simpl; lia). cbn [bind].
  rewrite APPEND_CONSTANT_appended by (simpl; lia). cbn [bind].
  rewrite APPEND_STRING_LEN_appended by (simpl; lia). cbn [bind].
  rewrite APPEND_CONSTANT_appended by (simpl; lia). cbn [bind].
  rewrite APPEND_STRING_LEN_appended by (simpl; lia). cbn [bind].
  assert (Hnone : forall st : hstate,
    match response_headers request with
    | Some array => append_headers array st
    | None => Ok st
    end = Ok st).
  { intros st. destruct Hextra as [->|(sentinel & rest & -> & Hname)].
    - reflexivity.
    - simpl. rewrite Hname. reflexivity. }
  rewrite Hnone. cbn [bind].
  rewrite APPEND_CONSTANT_appended by (simpl; lia). cbn [bind].
  unfold appended, overwrite. simpl. reflexivity.
Qed.

Lemma response_header_round_trip_witness :
  lwan_prepare_response_header sample_phrases sample_response_request HTTP_OK
    (repeat "x"%char 128)
  = Ok (103,
        ok_42_text_plain_block ++ NUL :: repeat "x"%char 24).
Proof.
  apply (response_header_round_trip sample_phrases sample_response_request
           (repeat "x"%char 128)).
  - reflexivity.
  - reflexivity.
  - reflexivity.
  - reflexivity.
  - reflexivity.
  - left. reflexivity.
  - simpl. lia.
Defined.

(** * Further properties *)

(** ** The four-byte word of [STRING_SWITCH] *)

Lemma lor_shiftl_add (x y n : Z) :
  0 <= n -> 0 <= x < 2 ^ n -> Z.lor x (Z.shiftl y n) = x + y * 2 ^ n.
Proof.
  intros Hn Hx.
  assert (Hland : Z.land x (Z.shiftl y n) = 0).
  { apply Z.bits_inj'. intros i Hi. rewrite Z.land_spec, Z.bits_0.
    destruct (Z.lt_ge_cases i n) as [Hlt|Hge].
    - rewrite Z.shiftl_spec_low by lia. apply andb_false_r.
    - rewrite <- (Z.mod_small x (2 ^ n)) by lia.
      rewrite Z.mod_pow2_bits_high by lia. reflexivity. }
  rewrite <- Z.lxor_lor by exact Hland.
  rewrite <- Z.add_nocarry_lxor by exact Hland.
  rewrite Z.shiftl_mul_pow2 by lia. reflexivity.
Qed.

Lemma Zchar_range (c : ascii) : 0 <= Zchar c < 256.
Proof.
  unfold Zchar. pose proof (N_ascii_bounded c). lia.
Qed.

Lemma Zchar_inj (a b : ascii) : Zchar a = Zchar b -> a = b.
Proof.
  unfold Zchar. intros H. apply N2Z.inj in H.
  rewrite <- (ascii_N_embedding a), <- (ascii_N_embedding b), H.
  reflexivity.
Qed.

Lemma MULTICHAR_CONSTANT_sum (a b c d : ascii) :
  MULTICHAR_CONSTANT a b c d
  = wrap_int32 (Zchar a + Zchar b * 2 ^ 8 + Zchar c * 2 ^ 16
                + Zchar d * 2 ^ 24).
Proof.
  unfold MULTICHAR_CONSTANT.
  pose proof (Zchar_range a). pose proof (Zchar_range b).
  pose proof (Zchar_range c). pose proof (Zchar_range d).
  rewrite (lor_shiftl_add (Zchar a)) by lia.
  rewrite (lor_shiftl_add (Zchar a + Zchar b * 2 ^ 8)) by lia.
  rewrite (lor_shiftl_add (Zchar a + Zchar b * 2 ^ 8 + Zchar c * 2 ^ 16))
    by lia.
  reflexivity.
Qed.

(** Two words are equal only when their four bytes are. *)
Lemma MULTICHAR_CONSTANT_inj (a b c d a' b' c' d' : ascii) :
  MULTICHAR_CONSTANT a b c d = MULTICHAR_CONSTANT a' b' c' d' ->
  a = a' /\ b = b' /\ c = c' /\ d = d'.
Proof.
  rewrite !MULTICHAR_CONSTANT_sum. unfold wrap_int32.
  pose proof (Zchar_range a). pose proof (Zchar_range b).
  pose proof (Zchar_range c). pose proof (Zchar_range d).
  pose proof (Zchar_range a'). pose proof (Zchar_range b').
  pose proof (Zchar_range c'). pose proof (Zchar_range d').
  rewrite !Z.mod_small by lia.
  intros H'.
  assert (Zchar a = Zchar a' /\ Zchar b = Zchar b' /\
          Zchar c = Zchar c' /\ Zchar d = Zchar d') as (Ea & Eb & Ec & Ed).
  { destruct (_ <? _), (_ <? _); lia. }
  auto using Zchar_inj.
Qed.

(** ** Requests that end before the request line *)

(** X1. A read of only whitespace, or of whitespace followed by a NUL byte
    and anything else, is answered with BAD_REQUEST: the whitespace skip stops
    on the NUL, and neither the request nor the buffer (beyond its
    terminator) is touched. *)
Theorem blank_request_is_bad_request
    (lookup : list ascii -> option lwan_url_map_t) (stack : mem)
    (ws junk : list ascii) (request : lwan_request_t) :
  let data := ws ++ junk in
  length stack = Z.to_nat sizeof_buffer ->
  forallb is_whitespace ws = true ->
  hd NUL junk = NUL ->
  0 < Z.of_nat (length data) < sizeof_buffer ->
  lwan_process_request lookup stack (ReadBytes data) request
  = Ok (DefaultResponse HTTP_BAD_REQUEST request (terminated stack data)).
Proof.
  intros data Hstack Hws Hjunk Hfit.
  rewrite process_request_stages by auto.
  unfold parse_stages, _ignore_leading_whitespace.
  destruct (Z.ltb_spec 0 0); [lia|]. rewrite drop_Z_0 by reflexivity.
  assert (Hm : exists tl, terminated stack data = ws ++ NUL :: tl).
  { unfold terminated. subst data. rewrite <- app_assoc.
    destruct junk as [|j junk']; simpl in Hjunk.
    - eexists. reflexivity.
    - subst j. eexists. simpl. reflexivity. }
  destruct Hm as [tl Hm]. rewrite Hm.
  rewrite whitespace_scan_app by (auto; reflexivity). cbn [bind].
  walk_load. cbn [bind]. rewrite Ascii.eqb_refl. reflexivity.
Qed.

Lemma blank_request_is_bad_request_witness :
  lwan_process_request no_routes sample_stack (ReadBytes (CRLF ++ CRLF))
    sample_request
  = Ok (DefaultResponse HTTP_BAD_REQUEST sample_request
          (terminated sample_stack (CRLF ++ CRLF))).
Proof.
  apply (blank_request_is_bad_request no_routes sample_stack (CRLF ++ CRLF)
           [] sample_request).
  - reflexivity.
  - reflexivity.
  - reflexivity.
  - rewrite app_nil_r. split; reflexivity.
Defined.

(** ** The method token *)

(** Four bytes that are neither "GET " nor "HEAD" take no arm of the
    switch. *)
Lemma identify_http_method_other (pre rest : list ascii) (a b c d : ascii)
    (request : lwan_request_t) :
  [a; b; c; d] <> chars "GET " -> [a; b; c; d] <> chars "HEAD" ->
  _identify_http_method (pre ++ a :: b :: c :: d :: rest) request
    (Z.of_nat (length pre))
  = Ok (request, None).
Proof.
  intros Hget Hhead.
  unfold _identify_http_method. rewrite STRING_SWITCH_reads. cbn [bind].
  destruct (Z.eqb_spec (MULTICHAR_CONSTANT a b c d) HTTP_STR_GET) as [E|_].
  { apply MULTICHAR_CONSTANT_inj in E as (-> & -> & -> & ->).
    contradiction Hget. reflexivity. }
  destruct (Z.eqb_spec (MULTICHAR_CONSTANT a b c d) HTTP_STR_HEAD) as [E|_].
  { apply MULTICHAR_CONSTANT_inj in E as (-> & -> & -> & ->).
    contradiction Hhead. reflexivity. }
  reflexivity.
Qed.

(** X2. [_identify_http_method] looks at exactly four bytes: it answers GET,
    with the cursor four bytes on, when they are "GET "; HEAD, with the cursor
    five bytes on, when they are "HEAD"; and NULL, leaving the request as it
    was, in every other case. *)
Theorem identify_http_method_exact (pre rest : list ascii) (a b c d : ascii)
    (request : lwan_request_t) :
  let buffer := Z.of_nat (length pre) in
  let result :=
    _identify_http_method (pre ++ a :: b :: c :: d :: rest) request buffer in
  ([a; b; c; d] = chars "GET " ->
   result = Ok (set_method HTTP_GET request, Some (buffer + 4)))
  /\
  ([a; b; c; d] = chars "HEAD" ->
   result = Ok (set_method HTTP_HEAD request, Some (buffer + 5)))
  /\
  ([a; b; c; d] <> chars "GET " -> [a; b; c; d] <> chars "HEAD" ->
   result = Ok (request, None)).
Proof.
  intros buffer result. subst result buffer.
  split; [|split].
  - intros H. inversion H; subst.
    unfold _identify_http_method. rewrite STRING_SWITCH_reads. reflexivity.
  - intros H. inversion H; subst.
    unfold _identify_http_method. rewrite STRING_SWITCH_reads. reflexivity.
  - apply identify_http_method_other.
Qed.

(** X3. A request whose first four bytes after the leading whitespace are
    neither "GET " nor "HEAD" (another method, or one of these in another
    case) is answered with NOT_ALLOWED; the request is left as it was and the
    buffer is only terminated. *)
Theorem unsupported_method_is_not_allowed
    (lookup : list ascii -> option lwan_url_map_t) (stack : mem)
    (ws rest : list ascii) (a b c d : ascii) (request : lwan_request_t) :
  let data := ws ++ a :: b :: c :: d :: rest in
  length stack = Z.to_nat sizeof_buffer ->
  forallb is_whitespace ws = true ->
  is_whitespace a = false -> a <> NUL ->
  [a; b; c; d] <> chars "GET " -> [a; b; c; d] <> chars "HEAD" ->
  Z.of_nat (length data) < sizeof_buffer ->
  lwan_process_request lookup stack (ReadBytes data) request
  = Ok (DefaultResponse HTTP_NOT_ALLOWED request (terminated stack data)).
Proof.
  intros data Hstack Hws Ha Hnul Hget Hhead Hfit.
  assert (Hpos : 0 < Z.of_nat (length data)).
  { subst data. rewrite length_app. simpl. lia. }
  rewrite process_request_stages by auto.
  unfold parse_stages, _ignore_leading_whitespace.
  destruct (Z.ltb_spec 0 0); [lia|]. rewrite drop_Z_0 by reflexivity.
  assert (Hm : terminated stack data
               = ws ++ a :: b :: c :: d ::
                   (rest ++ NUL :: drop (S (length data)) stack)).
  { unfold terminated. subst data. rewrite <- app_assoc. reflexivity. }
  rewrite Hm.
  rewrite whitespace_scan_app by auto. cbn [bind].
  walk_load. cbn [bind].
  destruct (Ascii.eqb_spec a NUL) as [E|_]; [contradiction|].
  replace (0 + Z.of_nat (length ws)) with (Z.of_nat (length ws)) by lia.
  rewrite (identify_http_method_other ws
             (rest ++ NUL :: drop (S (length data)) stack) a b c d request
             Hget Hhead).
  reflexivity.
Qed.

Lemma unsupported_method_is_not_allowed_witness :
  lwan_process_request no_routes sample_stack
    (ReadBytes (chars "POST / HTTP/1.1" ++ CRLF ++ CRLF)) sample_request
  = Ok (DefaultResponse HTTP_NOT_ALLOWED sample_request
          (terminated sample_stack (chars "POST / HTTP/1.1" ++ CRLF ++ CRLF))).
Proof.
  apply (unsupported_method_is_not_allowed no_routes sample_stack []
           (chars " / HTTP/1.1" ++ CRLF ++ CRLF) "P" "O" "S" "T"
           sample_request).
  - reflexivity.
  - reflexivity.
  - reflexivity.
  - discriminate.
  - discriminate.
  - discriminate.
  - reflexivity.
Defined.

(** ** The read *)

(** X4. The entry point returns false, without any response, exactly when
    the read failed or delivered no byte. *)
Theorem no_response_iff_nothing_read
    (lookup : list ascii -> option lwan_url_map_t) (stack : mem)
    (rd : read_result) (request : lwan_request_t) :
  lwan_process_request lookup stack rd request = Ok ReturnFalse
  <-> rd = ReadError \/ rd = ReadBytes [].
Proof.
  split.
  - unfold lwan_process_request. destruct rd as [|data]; [auto|].
    destruct data as [|x data]; [auto|]. intros H. exfalso.
    destruct (_ =? 0) eqn:E0.
    { apply Z.eqb_eq in E0.
      change (Z.to_nat sizeof_buffer) with (S (Z.to_nat (sizeof_buffer - 1)))
        in E0.
      simpl in E0. lia. }
    destruct (_ =? sizeof_buffer); [discriminate H|].
    destruct (store _ _ NUL) as [m|]; [|discriminate H]. cbn [bind] in H.
    destruct (parse_stages m request _) as [[[m1 r1] failed]|];
      [|discriminate H].
    cbn [bind] in H. destruct failed; [discriminate H|].
    destruct (cstring m1 (url r1)) as [path|]; [|discriminate H].
    cbn [bind] in H. destruct (lookup path); discriminate H.
  - intros [->| ->]; reflexivity.
Qed.

(** ** Whole requests *)

Lemma cstring_scan_app (u l : list ascii) (p : Z) :
  no_byte NUL u = true -> cstring_scan (u ++ NUL :: l) p = Ok u.
Proof.
  revert p. induction u as [|x u IH]; intros p Hu.
  - cbn [app cstring_scan]. rewrite Ascii.eqb_refl. reflexivity.
  - apply no_byte_cons in Hu as [Hx Hu]. cbn [app cstring_scan].
    rewrite Hx, IH by exact Hu. reflexivity.
Qed.

(** With at most four bytes between the cursor and the end of the bytes
    read, the header loop stops at once. *)
Lemma parse_headers_nothing_left (m : mem) (r : lwan_request_t)
    (p buffer_end : Z) (c : ascii) :
  load m p = Ok c -> buffer_end <= p + 4 ->
  _parse_headers m r p buffer_end = Ok ((m, r), Some p).
Proof.
  intros Hload Hend. unfold _parse_headers. cbn [parse_headers_loop].
  rewrite Hload. cbn [bind].
  destruct (Ascii.eqb c NUL); [reflexivity|].
  destruct (Z.geb_spec (p + 4) buffer_end); [reflexivity|lia].
Qed.

(** After the request line the parse stages go on to the headers, on the
    buffer with the line cut out. *)
Lemma request_line_then_headers (stack : mem) (ws u rest : list ascii)
    (verb : lwan_http_method_t) (skipped minor : ascii)
    (request : lwan_request_t) :
  forallb is_whitespace ws = true ->
  hd_error u = Some "/"%char ->
  no_byte CR (u ++ chars " HTTP/1." ++ [minor]) = true ->
  parse_stages
    (terminated stack (request_bytes ws verb skipped u minor rest)) request
    (Z.of_nat (length (request_bytes ws verb skipped u minor rest)))
  = let* '((m, r), p_buffer) :=
      _parse_headers (cut_request_line stack ws verb skipped u minor rest)
        (after_request_line verb (line_start ws verb skipped) u minor request)
        (line_start ws verb skipped + Z.of_nat (length u) + 10)
        (0 + Z.of_nat (length (request_bytes ws verb skipped u minor rest)))
    in
    match p_buffer with
    | None => Ok ((m, r), Some HTTP_BAD_REQUEST)
    | Some _ => Ok ((m, _compute_flags r), None)
    end.
Proof.
  intros ws_whitespace u_slash no_cr.
  set (data := request_bytes ws verb skipped u minor rest) in *.
  assert (Hlimit : Z.of_nat (length u) + 9 < Z.of_nat (length data)).
  { subst data. unfold request_bytes. rewrite !length_app. simpl. lia. }
  pose proof (identify_http_path_long_line
                (ws ++ method_token verb skipped) u
                (rest ++ NUL :: drop (S (length data)) stack)
                " " "H" "T" "T" "P" "/" "1" "." minor
                (set_method verb request) (Z.of_nat (length data))
                no_cr Hlimit) as Hpath.
  cbv zeta in Hpath.
  assert (Hterm : terminated stack data
                  = (ws ++ method_token verb skipped) ++ u ++
                    [" "; "H"; "T"; "T"; "P"; "/"; "1"; "."; minor]%char
                    ++ CR :: (rest ++ NUL :: drop (S (length data)) stack)).
  { subst data. unfold terminated, request_bytes. rewrite <- !app_assoc.
    reflexivity. }
  rewrite <- Hterm in Hpath.
  assert (Hfirst : hd NUL (u ++ [NUL]) = "/"%char).
  { destruct u as [|c u']; [discriminate u_slash|].
    inversion u_slash. reflexivity. }
  rewrite Hfirst in Hpath. simpl in Hpath.
  assert (Hdata : data = ws ++ method_token verb skipped ++
                         ((u ++ chars " HTTP/1." ++ [minor]) ++ CR :: rest))
    by reflexivity.
  rewrite Hdata at 1. rewrite parse_stages_method by exact ws_whitespace.
  rewrite <- Hdata.
  unfold stages_after_method. rewrite Hpath. reflexivity.
Qed.

Lemma cut_request_line_url (stack : mem) (ws u rest : list ascii)
    (verb : lwan_http_method_t) (skipped minor : ascii) :
  no_byte NUL u = true ->
  cstring (cut_request_line stack ws verb skipped u minor rest)
    (line_start ws verb skipped) = Ok u.
Proof.
  intros u_no_nul. unfold cstring, cut_request_line, line_start.
  destruct (Z.ltb_spec (Z.of_nat (length (ws ++ method_token verb skipped))) 0);
    [lia|].
  walk_drop. simpl app. apply cstring_scan_app. exact u_no_nul.
Qed.

Lemma request_bytes_positive (ws u rest : list ascii)
    (verb : lwan_http_method_t) (skipped minor : ascii) :
  0 < Z.of_nat (length (request_bytes ws verb skipped u minor rest)).
Proof.
  unfold request_bytes. rewrite !length_app. destruct verb; simpl; lia.
Qed.

(** The byte right after the carriage return of the request line. *)
Lemma cut_request_line_next (stack : mem) (ws u rest : list ascii)
    (verb : lwan_http_method_t) (skipped minor : ascii) :
  exists c,
    load (cut_request_line stack ws verb skipped u minor rest)
      (line_start ws verb skipped + Z.of_nat (length u) + 10) = Ok c.
Proof.
  unfold cut_request_line, line_start. simpl app.
  destruct rest as [|c rest']; eexists; simpl app; solve_load.
Qed.

(** X5. A request line [<verb> <u> HTTP/1.<minor>] with [u] starting with
    '/', followed by at most four more bytes after its carriage return (the
    line feed and the blank line), is parsed and routed: the handler of the
    route found for [u], or else NOT_FOUND, gets the request with the method,
    the version of the minor digit, [url] at the start of the line (advanced
    by the prefix when routed), [url_len] the length of [u], and the
    keep-alive flag computed from that version and from the Connection byte
    the request already carried, which the parse does not reset. *)
Theorem request_without_headers_is_routed
    (lookup : list ascii -> option lwan_url_map_t) (stack : mem)
    (ws u rest : list ascii) (verb : lwan_http_method_t)
    (skipped minor : ascii) (request : lwan_request_t) :
  let data := request_bytes ws verb skipped u minor rest in
  let parsed :=
    _compute_flags
      (after_request_line verb (line_start ws verb skipped) u minor request) in
  length stack = Z.to_nat sizeof_buffer ->
  forallb is_whitespace ws = true ->
  hd_error u = Some "/"%char ->
  no_byte CR (u ++ chars " HTTP/1." ++ [minor]) = true ->
  no_byte NUL u = true ->
  (length rest <= 4)%nat ->
  Z.of_nat (length data) < sizeof_buffer ->
  lwan_process_request lookup stack (ReadBytes data) request
  = Ok (routed lookup u parsed
          (cut_request_line stack ws verb skipped u minor rest))
  /\ header_connection parsed = header_connection request.
Proof.
  intros data parsed Hstack Hws Hu Hcr Hnul Hrest Hfit.
  split; [|subst parsed; unfold _compute_flags;
           destruct (http_version _); reflexivity].
  rewrite process_request_stages;
    [| exact Hstack | split; [apply request_bytes_positive | exact Hfit] ].
  subst data. rewrite request_line_then_headers by assumption.
  destruct (cut_request_line_next stack ws u rest verb skipped minor)
    as [c Hc].
  rewrite (parse_headers_nothing_left _ _ _ _ c Hc).
  2:{ unfold request_bytes, line_start. rewrite !length_app. simpl. lia. }
  cbn [bind].
  assert (Hurl : url parsed = line_start ws verb skipped).
  { subst parsed. unfold _compute_flags. destruct (http_version _);
      reflexivity. }
  fold parsed. rewrite Hurl.
  rewrite cut_request_line_url by assumption. cbn [bind].
  unfold routed. rewrite Hurl. destruct (lookup u); reflexivity.
Qed.

Lemma request_without_headers_is_routed_witness :
  lwan_process_request hello_route sample_stack
    (ReadBytes (chars "GET /hello HTTP/1.0" ++ CRLF ++ CRLF)) sample_request
  = Ok (Response {| prefix_len := 6; callback := 0 |}
          {| method := HTTP_GET; http_version := HTTP_1_0; url := 10;
             url_len := 6; header_connection := NUL;
             flags_is_keep_alive := false;
             response := response sample_request |}
          (cut_request_line sample_stack [] HTTP_GET NUL (chars "/hello") "0"
             (LF :: CRLF))).
Proof.
  refine (proj1 (request_without_headers_is_routed hello_route sample_stack
                   [] (chars "/hello") (LF :: CRLF) HTTP_GET NUL "0"
                   sample_request _ _ _ _ _ _ _)).
  - reflexivity.
  - reflexivity.
  - reflexivity.
  - reflexivity.
  - reflexivity.
  - simpl. lia.
  - reflexivity.
Defined.

(** ** Lines of the header block *)







(** ** Header blocks *)











(** ** Whole requests with headers *)








(** ** The encoder, for every response *)

Lemma memcpy_take (src : list ascii) (len : nat) (h : mem) (p : Z) :
  (len <= length src)%nat ->
  memcpy h p src len = memcpy h p (take len src) len.
Proof.
  revert src h p. induction len as [|len IH]; intros src h p Hlen.
  - reflexivity.
  - destruct src as [|x src]; [simpl in Hlen; lia|]. simpl.
    destruct (store h p x) as [h'|]; [|reflexivity]. cbn [bind].
    apply IH. simpl in Hlen. lia.
Qed.

Lemma memcpy_app (a b : list ascii) (h : mem) (p : Z) :
  memcpy h p (a ++ b) (length (a ++ b))
  = let* h' := memcpy h p a (length a) in
    memcpy h' (p + Z.of_nat (length a)) b (length b).
Proof.
  revert h p. induction a as [|x a IH]; intros h p.
  - simpl. f_equal. lia.
  - simpl. destruct (store h p x) as [h'|]; [|reflexivity]. cbn [bind].
    rewrite IH. destruct (memcpy h' (p + 1) a (length a)); [|reflexivity].
    cbn [bind]. f_equal. lia.
Qed.

Lemma emit_emit (a b : list ascii) (st : hstate) :
  (let* st' := emit a st in emit b st') = emit (a ++ b) st.
Proof.
  destruct st as [h p]. unfold emit. rewrite memcpy_app.
  destruct (memcpy h p a (length a)) as [h'|]; [|reflexivity]. cbn [bind].
  destruct (memcpy h' _ b (length b)) as [h''|]; [|reflexivity]. cbn [bind].
  rewrite length_app. do 2 f_equal. lia.
Qed.

Lemma emit_nil (st : hstate) : emit [] st = Ok st.
Proof. destruct st as [h p]. unfold emit. simpl. do 2 f_equal. lia. Qed.

Lemma APPEND_STRING_LEN_emit (s : list ascii) (len : Z) (st : hstate) :
  0 <= len <= Z.of_nat (length s) ->
  APPEND_STRING_LEN s len st = emit (take (Z.to_nat len) s) st.
Proof.
  intros Hlen. destruct st as [h p]. unfold APPEND_STRING_LEN, emit.
  rewrite length_take. replace (Z.to_nat len `min` length s)%nat
    with (Z.to_nat len) by lia.
  rewrite memcpy_take by lia.
  destruct (memcpy h p _ _); [|reflexivity]. cbn [bind]. do 2 f_equal. lia.
Qed.

Lemma APPEND_CONSTANT_emit (s : list ascii) (st : hstate) :
  APPEND_CONSTANT s st = emit s st.
Proof.
  unfold APPEND_CONSTANT. rewrite APPEND_STRING_LEN_emit by lia.
  rewrite Nat2Z.id, take_ge by lia. reflexivity.
Qed.

Lemma strlen_le (s : list ascii) : (strlen s <= length s)%nat.
Proof.
  induction s as [|x s IH]; simpl; [lia|].
  destruct (Ascii.eqb x NUL); lia.
Qed.

Lemma APPEND_STRING_emit (s : list ascii) (st : hstate) :
  APPEND_STRING s st = emit (cstr s) st.
Proof.
  unfold APPEND_STRING, cstr. pose proof (strlen_le s).
  rewrite APPEND_STRING_LEN_emit by lia. rewrite Nat2Z.id. reflexivity.
Qed.

Lemma APPEND_CHAR_emit (c : ascii) (st : hstate) :
  APPEND_CHAR c st = emit [c] st.
Proof.
  destruct st as [h p]. unfold APPEND_CHAR, emit. simpl.
  destruct (store h p c); reflexivity.
Qed.

Lemma APPEND_INT_emit (v : Z) (st : hstate) :
  APPEND_INT v st = emit (int_to_string v) st.
Proof.
  unfold APPEND_INT. rewrite APPEND_STRING_LEN_emit by lia.
  rewrite Nat2Z.id, take_ge by lia. reflexivity.
Qed.

Lemma digit_in_range (i : Z) :
  0 <= i < 10 -> digit i = Ok (digit_char i).
Proof.
  intros Hi. unfold digit, digit_char.
  destruct (Z.ltb_spec i 0); [lia|].
  assert (Hn : (Z.to_nat i < 10)%nat) by lia.
  destruct (Z.to_nat i) as [|[|[|[|[|[|[|[|[|[|n]]]]]]]]]]; try reflexivity.
  lia.
Qed.

Lemma APPEND_INT8_emit (v : Z) (st : hstate) :
  0 <= v -> APPEND_INT8 v st = emit (three_digits v) st.
Proof.
  intros Hv. unfold APPEND_INT8, three_digits.
  assert (H2 : 0 <= Z.rem (Z.quot v 100) 10 < 10).
  { apply Z.rem_bound_pos; [apply Z.quot_pos|]; lia. }
  assert (H1 : 0 <= Z.rem (Z.quot v 10) 10 < 10).
  { apply Z.rem_bound_pos; [apply Z.quot_pos|]; lia. }
  assert (H0 : 0 <= Z.rem v 10 < 10) by (apply Z.rem_bound_pos; lia).
  rewrite !digit_in_range by assumption. cbn [bind].
  rewrite !APPEND_CHAR_emit.
  change [digit_char (Z.rem (Z.quot v 100) 10);
          digit_char (Z.rem (Z.quot v 10) 10); digit_char (Z.rem v 10)]
    with ([digit_char (Z.rem (Z.quot v 100) 10)] ++
          [digit_char (Z.rem (Z.quot v 10) 10)] ++
          [digit_char (Z.rem v 10)]).
  rewrite <- !emit_emit.
  destruct (emit [digit_char (Z.rem (Z.quot v 100) 10)] st) as [st1|];
    [|reflexivity].
  cbn [bind]. rewrite APPEND_CHAR_emit, <- emit_emit.
  destruct (emit [digit_char (Z.rem (Z.quot v 10) 10)] st1) as [st2|];
    [|reflexivity].
  cbn [bind]. apply APPEND_CHAR_emit.
Qed.

(** Peel the first appended piece off both sides. *)
Ltac emit_step a :=
  rewrite <- (emit_emit a);
  match goal with
  | |- bind ?e _ = bind ?e _ =>
      let st := fresh "st" in
      destruct e as [st|]; [cbn [bind] | reflexivity]
  end.

Lemma append_headers_emit (array : list lwan_http_header_t)
    (lines : list ascii) (st : hstate) :
  extra_header_lines array = Some lines ->
  append_headers array st = emit lines st.
Proof.
  revert lines st. induction array as [|header array IH]; intros lines st H.
  - discriminate H.
  - cbn [extra_header_lines] in H. cbn [append_headers].
    destruct (name header) as [header_name|].
    + destruct (extra_header_lines array) as [lines'|]; [|discriminate H].
      inversion H; subst lines. clear H.
      match goal with
      | |- _ = emit ?l st =>
          change l
            with ([CR] ++ [LF] ++ cstr header_name ++
                  [":"%char] ++ [" "%char] ++ cstr (value header) ++ lines')
      end.
      rewrite APPEND_CHAR_emit. emit_step [CR].
      rewrite APPEND_CHAR_emit. emit_step [LF].
      rewrite APPEND_STRING_emit. emit_step (cstr header_name).
      rewrite APPEND_CHAR_emit. emit_step [":"%char].
      rewrite APPEND_CHAR_emit. emit_step [" "%char].
      rewrite APPEND_STRING_emit. emit_step (cstr (value header)).
      apply IH. reflexivity.
    + inversion H; subst lines. rewrite emit_nil. reflexivity.
Qed.

Lemma memcpy_overflow (src w : list ascii) (h : mem) :
  (length w <= length h)%nat -> (length h < length w + length src)%nat ->
  memcpy (overwrite w h) (Z.of_nat (length w)) src (length src)
  = Fault (OutOfBounds (Z.of_nat (length h))).
Proof.
  revert w. induction src as [|x src IH]; intros w Hw Hover.
  - simpl in Hover. lia.
  - simpl. destruct (Nat.eq_dec (length w) (length h)) as [E|Hne].
    + unfold store, overwrite.
      destruct (Z.ltb_spec (Z.of_nat (length w)) 0); [lia|].
      rewrite Nat2Z.id, drop_ge, app_nil_r by lia.
      rewrite lookup_ge_None_2 by lia. rewrite E. reflexivity.
    + rewrite store_overwrite by lia. cbn [bind].
      replace (Z.of_nat (length w) + 1) with (Z.of_nat (length (w ++ [x])))
        by (rewrite length_app; simpl; lia).
      apply IH; rewrite length_app; simpl in *; lia.
Qed.

Lemma bind_bind {A B C : Type} (e : result A) (f : A -> result B)
    (g : B -> result C) :
  bind (bind e f) g = bind e (fun x => bind (f x) g).
Proof. destruct e; reflexivity. Qed.

(** Peel the first appended piece off both sides, under the final return. *)
Ltac emit_step' a :=
  rewrite <- (emit_emit a), bind_bind;
  match goal with
  | |- bind ?e _ = bind ?e' _ =>
      let st := fresh "st" in
      change e' with e; destruct e as [st|]; [cbn [bind] | reflexivity]
  end.

Lemma emit_at_start (src : list ascii) (h : mem) :
  (length src <= length h)%nat ->
  emit src (h, 0) = Ok (src ++ drop (length src) h, Z.of_nat (length src)).
Proof.
  intros Hroom. unfold emit.
  assert (Hcopy : memcpy h 0 src (length src)
                  = Ok (overwrite (take (length src) src) h))
    by (apply (memcpy_overwrite src (length src) [] h); simpl; lia).
  rewrite Hcopy. cbn [bind]. unfold overwrite.
  rewrite take_ge by lia. reflexivity.
Qed.

Lemma emit_past_end (src : list ascii) (h : mem) :
  (length h < length src)%nat ->
  emit src (h, 0) = Fault (OutOfBounds (Z.of_nat (length h))).
Proof.
  intros Hshort. unfold emit.
  assert (Hcopy : memcpy h 0 src (length src)
                  = Fault (OutOfBounds (Z.of_nat (length h))))
    by (apply (memcpy_overflow src [] h); simpl; lia).
  rewrite Hcopy. reflexivity.
Qed.

(** The appends of the encoder, as one copy. *)
Lemma encoder_appends
    (lwan_http_status_as_string : lwan_http_status_t -> list ascii)
    (request : lwan_request_t) (status : lwan_http_status_t)
    (headers : mem) (extra : list ascii) :
  match response_headers request with
  | Some array => extra_header_lines array
  | None => Some []
  end = Some extra ->
  lwan_prepare_response_header lwan_http_status_as_string request status
    headers
  = let* st :=
      emit ((chars "HTTP/" ++ _http_versions (http_version request) ++
             chars " " ++ three_digits (status_value status) ++ chars " " ++
             cstr (lwan_http_status_as_string status) ++ CRLF ++
             chars "Content-Length: " ++
             int_to_string (content_length (response request)) ++ CRLF ++
             chars "Content-Type: " ++ cstr (mime_type (response request)) ++
             CRLF ++
             chars "Connection: " ++
             _http_connection_type (flags_is_keep_alive request) ++
             extra ++ CRLF ++
             chars "Server: lwan" ++ CRLF ++ CRLF) ++ [NUL]) (headers, 0) in
    Ok (snd st - 0 - 1, fst st).
Proof.
  unfold lwan_prepare_response_header. intros Hextra.
  repeat rewrite <- app_assoc.
  rewrite APPEND_CONSTANT_emit. emit_step' (chars "HTTP/").
  rewrite APPEND_STRING_LEN_emit by (destruct (http_version request); simpl; lia).
  replace (take (Z.to_nat 3) (_http_versions (http_version request)))
    with (_http_versions (http_version request))
    by (destruct (http_version request); reflexivity).
  emit_step' (_http_versions (http_version request)).
  rewrite APPEND_CHAR_emit. emit_step' (chars " ").
  rewrite APPEND_INT8_emit by (destruct status; simpl; lia).
  emit_step' (three_digits (status_value status)).
  rewrite APPEND_CHAR_emit. emit_step' (chars " ").
  rewrite APPEND_STRING_emit.
  emit_step' (cstr (lwan_http_status_as_string status)).
  rewrite APPEND_CONSTANT_emit.
  rewrite (app_assoc CRLF (chars "Content-Length: ")).
  emit_step' (CRLF ++ chars "Content-Length: ").
  rewrite APPEND_INT_emit.
  emit_step' (int_to_string (content_length (response request))).
  rewrite APPEND_CONSTANT_emit.
  rewrite (app_assoc CRLF (chars "Content-Type: ")).
  emit_step' (CRLF ++ chars "Content-Type: ").
  rewrite APPEND_STRING_emit.
  emit_step' (cstr (mime_type (response request))).
  rewrite APPEND_CONSTANT_emit.
  rewrite (app_assoc CRLF (chars "Connection: ")).
  emit_step' (CRLF ++ chars "Connection: ").
  rewrite APPEND_STRING_LEN_emit
    by (destruct (flags_is_keep_alive request); simpl; lia).
  replace (take _ (_http_connection_type (flags_is_keep_alive request)))
    with (_http_connection_type (flags_is_keep_alive request))
    by (destruct (flags_is_keep_alive request); reflexivity).
  emit_step' (_http_connection_type (flags_is_keep_alive request)).
  assert (Hx : forall s : hstate,
    match response_headers request with
    | Some array => append_headers array s
    | None => Ok s
    end = emit extra s).
  { intros s. destruct (response_headers request) as [array|].
    - apply append_headers_emit. exact Hextra.
    - injection Hextra as <-. rewrite emit_nil. reflexivity. }
  rewrite Hx. emit_step' extra.
  rewrite APPEND_CONSTANT_emit. reflexivity.
Qed.

(** The encoder is one copy of the header block and a NUL to the start of
    the caller's buffer. *)
Lemma encoder_is_emit
    (lwan_http_status_as_string : lwan_http_status_t -> list ascii)
    (request : lwan_request_t) (status : lwan_http_status_t)
    (headers : mem) (blk : list ascii) :
  header_block lwan_http_status_as_string request status = Some blk ->
  lwan_prepare_response_header lwan_http_status_as_string request status
    headers
  = let* st := emit (blk ++ [NUL]) (headers, 0) in
    Ok (snd st - 0 - 1, fst st).
Proof.
  unfold header_block. intros H.
  destruct (match response_headers request with
            | Some array => extra_header_lines array
            | None => Some []
            end) as [extra|] eqn:Hextra; [|discriminate H].
  injection H as <-. apply encoder_appends. exact Hextra.
Qed.

(** X8. For every request, status and response whose extra-header array is
    NULL or ends with the sentinel, when the caller's buffer has room for the
    header block and one more byte, [lwan_prepare_response_header] writes the
    block (status line, Content-Length, Content-Type, Connection, the extra
    headers in their order, Server, blank line) followed by NUL at the start
    of the buffer, leaves the rest of the buffer as it was and returns the
    length of the block. *)
Theorem encoder_writes_header_block
    (lwan_http_status_as_string : lwan_http_status_t -> list ascii)
    (request : lwan_request_t) (status : lwan_http_status_t)
    (headers : mem) (blk : list ascii) :
  header_block lwan_http_status_as_string request status = Some blk ->
  (length blk < length headers)%nat ->
  lwan_prepare_response_header lwan_http_status_as_string request status
    headers
  = Ok (Z.of_nat (length blk), blk ++ NUL :: drop (S (length blk)) headers).
Proof.
  intros Hblk Hroom. rewrite (encoder_is_emit _ _ _ _ _ Hblk).
  rewrite emit_at_start by (rewrite length_app; simpl; lia).
  cbn [bind fst snd]. rewrite length_app. simpl length.
  rewrite <- app_assoc. simpl. do 2 f_equal; [lia|].
  do 2 f_equal. f_equal. lia.
Qed.

(** X9. The encoder checks no bound: when the caller's buffer is not longer
    than the header block, the write that follows the last byte of the buffer
    is attempted all the same (the model stops there with a fault at that
    offset). *)
Theorem encoder_overruns_short_buffer
    (lwan_http_status_as_string : lwan_http_status_t -> list ascii)
    (request : lwan_request_t) (status : lwan_http_status_t)
    (headers : mem) (blk : list ascii) :
  header_block lwan_http_status_as_string request status = Some blk ->
  (length headers <= length blk)%nat ->
  lwan_prepare_response_header lwan_http_status_as_string request status
    headers
  = Fault (OutOfBounds (Z.of_nat (length headers))).
Proof.
  intros Hblk Hshort. rewrite (encoder_is_emit _ _ _ _ _ Hblk).
  rewrite emit_past_end by (rewrite length_app; simpl; lia).
  reflexivity.
Qed.

Lemma encoder_writes_header_block_witness :
  header_block sample_phrases not_found_request HTTP_NOT_FOUND
  = Some not_found_block /\
  (length not_found_block < length (repeat "x"%char 200))%nat /\
  lwan_prepare_response_header sample_phrases not_found_request HTTP_NOT_FOUND
    (repeat "x"%char 200)
  = Ok (Z.of_nat (length not_found_block),
        not_found_block ++ NUL ::
          drop (S (length not_found_block)) (repeat "x"%char 200)).
Proof.
  split; [reflexivity|]. split; [vm_compute; lia|].
  apply (encoder_writes_header_block sample_phrases not_found_request
           HTTP_NOT_FOUND (repeat "x"%char 200) not_found_block).
  - reflexivity.
  - vm_compute. lia.
Defined.

Lemma encoder_overruns_short_buffer_witness :
  header_block sample_phrases not_found_request HTTP_NOT_FOUND
  = Some not_found_block /\
  (length (repeat "x"%char 100) <= length not_found_block)%nat /\
  lwan_prepare_response_header sample_phrases not_found_request HTTP_NOT_FOUND
    (repeat "x"%char 100)
  = Fault (OutOfBounds 100).
Proof.
  split; [reflexivity|]. split; [vm_compute; lia|].
  apply (encoder_overruns_short_buffer sample_phrases not_found_request
           HTTP_NOT_FOUND (repeat "x"%char 100) not_found_block).
  - reflexivity.
  - vm_compute. lia.
Defined.

(** ** An extra-header array without its sentinel *)

Lemma append_headers_without_sentinel (array : list lwan_http_header_t)
    (st : hstate) :
  extra_header_lines array = None ->
  exists f, append_headers array st = Fault f.
Proof.
  revert st. induction array as [|header array IH]; intros st H.
  - exists (OutOfBounds 0). reflexivity.
  - cbn [extra_header_lines] in H. cbn [append_headers].
    destruct (name header) as [header_name|]; [|discriminate H].
    destruct (extra_header_lines array); [discriminate H|].
    repeat match goal with
           | |- exists f, bind ?e _ = Fault f =>
               let st' := fresh "st" in
               destruct e as [st'|f']; [cbn [bind] | exists f'; reflexivity]
           end.
    apply IH. reflexivity.
Qed.

(** X10. The loop over the extra headers stops only at an entry whose name is
    NULL: when the array of the response has no such entry,
    [lwan_prepare_response_header] returns no length, whatever the size of
    the caller's buffer (the walk leaves the array, or the buffer before
    that). *)
Theorem encoder_needs_the_sentinel
    (lwan_http_status_as_string : lwan_http_status_t -> list ascii)
    (request : lwan_request_t) (status : lwan_http_status_t)
    (headers : mem) :
  header_block lwan_http_status_as_string request status = None ->
  exists f,
    lwan_prepare_response_header lwan_http_status_as_string request status
      headers = Fault f.
Proof.
  unfold header_block, lwan_prepare_response_header. intros H.
  destruct (response_headers request) as [array|]; [|discriminate H].
  destruct (extra_header_lines array) eqn:Hextra; [discriminate H|].
  repeat match goal with
         | |- exists f, bind (append_headers _ _) _ = Fault f => fail 1
         | |- exists f, bind ?e _ = Fault f =>
             let st' := fresh "st" in
             destruct e as [st'|f']; [cbn [bind] | exists f'; reflexivity]
         end.
  destruct (append_headers_without_sentinel array st10 Hextra) as [f Hf].
  exists f. rewrite Hf. reflexivity.
Qed.

Lemma encoder_needs_the_sentinel_witness :
  header_block sample_phrases unterminated_request HTTP_NOT_FOUND = None /\
  exists f,
    lwan_prepare_response_header sample_phrases unterminated_request
      HTTP_NOT_FOUND (repeat "x"%char 200) = Fault f.
Proof.
  split; [reflexivity|].
  apply (encoder_needs_the_sentinel sample_phrases unterminated_request
           HTTP_NOT_FOUND (repeat "x"%char 200)).
  reflexivity.
Defined.

(** ** The header loop always hands back a cursor *)

(** X11. [_parse_headers] comes to an end on every buffer, and when it
    returns, the pointer it returns is not NULL and not before the start it
    was given; the buffer differs from the one it got only by NULs written on
    carriage returns, and of the request only the Connection byte can have
    changed.  So the NULL test on its result in [lwan_process_request] never
    answers BAD_REQUEST. *)
Theorem parse_headers_returns_a_cursor (m : mem) (r : lwan_request_t)
    (buffer buffer_end : Z) :
  terminates (_parse_headers m r buffer buffer_end) /\
  forall (m' : mem) (r' : lwan_request_t) (q : option Z),
    _parse_headers m r buffer buffer_end = Ok ((m', r'), q) ->
    (exists p, q = Some p /\ buffer <= p) /\
    cr_cut m m' /\
    exists oc, r' = assign (assign_connection oc) r.
Proof.
  split; [apply terminates_parse_headers|].
  unfold _parse_headers. generalize (S (Z.to_nat (buffer_end - buffer))).
  intros fuel. revert m r buffer.
  induction fuel as [|fuel IH]; intros m r p m' r' q H; [discriminate H|].
  pose proof (parse_headers_loop_inv _ _ _ _ _ _ _ _ H) as [Hcut [oc Hoc]].
  split; [|split; [exact Hcut|]].
  2:{ exists oc. specialize (Hoc r). rewrite H in Hoc. congruence. }
  clear Hcut oc Hoc. cbn [parse_headers_loop] in H.
  destruct (load m p) as [c|]; [|discriminate H]. cbn [bind] in H.
  destruct (Ascii.eqb c NUL).
  { inversion H; subst. exists p. split; [reflexivity|lia]. }
  destruct (p + 4 >=? buffer_end).
  { inversion H; subst. exists p. split; [reflexivity|lia]. }
  destruct (header_line m r p) as [[[m1 r1] [q1|]]|] eqn:Hline;
    cbn [bind] in H; try discriminate H.
  apply header_line_inv in Hline as (_ & Hq & _).
  specialize (Hq q1 eq_refl).
  destruct (IH _ _ _ _ _ _ H) as [[p' [-> Hp']] _].
  exists p'. split; [reflexivity|lia].
Qed.

(** ** What the entry point leaves alone *)

Lemma response_finish_assign (o : option lwan_http_status_t) (a : assignment)
    (r : lwan_request_t) :
  response (finish o (assign a r)) = response r.
Proof.
  destruct o; simpl; [reflexivity|]. unfold _compute_flags.
  destruct (http_version (assign a r)); reflexivity.
Qed.

(** X12. Whatever was read, the buffer the entry point hands on with its
    answer is the array after the read with some bytes replaced by NUL, of the
    same length, and the response record of the request is the one the caller
    passed in. *)
Theorem entry_point_only_writes_nul
    (lookup : list ascii -> option lwan_url_map_t) (stack : mem)
    (data : list ascii) (request : lwan_request_t) (o : outcome) :
  lwan_process_request lookup stack (ReadBytes data) request = Ok o ->
  o = ReturnFalse \/
  exists r' m',
    outcome_request o = Some r' /\ outcome_buffer o = Some m' /\
    nul_writes (read_into stack data) m' /\
    response r' = response request.
Proof.
  unfold lwan_process_request. intros H.
  destruct (_ =? 0); [inversion H; left; reflexivity|].
  destruct (_ =? sizeof_buffer).
  { inversion H. right. exists request, (read_into stack data).
    split; [reflexivity|]. split; [reflexivity|].
    split; [apply nul_writes_refl | reflexivity]. }
  destruct (store _ _ NUL) as [m0|] eqn:Hstore; [|discriminate H].
  apply nul_writes_store in Hstore. cbn [bind] in H.
  destruct (parse_stages m0 request _) as [[[m1 r1] failed]|] eqn:Hstages;
    [|discriminate H].
  cbn [bind] in H.
  apply parse_stages_inv in Hstages as Hinv.
  destruct Hinv as (Hnul & [a Ha] & _).
  specialize (Ha request). rewrite Hstages in Ha.
  assert (Hr1 : response r1 = response request).
  { assert (Hr : r1 = finish failed (assign a request)) by congruence.
    rewrite Hr. apply response_finish_assign. }
  assert (Hm1 : nul_writes (read_into stack data) m1)
    by (eapply nul_writes_trans; eassumption).
  right. destruct failed as [status|].
  - inversion H. exists r1, m1. split; [reflexivity|]. split; [reflexivity|]. split; assumption.
  - destruct (cstring m1 (url r1)) as [path|]; [|discriminate H].
    cbn [bind] in H. destruct (lookup path) as [url_map|]; inversion H.
    + exists (set_url (url r1 + prefix_len url_map) r1), m1.
      split; [reflexivity|]. split; [reflexivity|]. split; assumption.
    + exists r1, m1. split; [reflexivity|]. split; [reflexivity|]. split; assumption.
Qed.

Lemma entry_point_only_writes_nul_witness :
  exists o,
    lwan_process_request hello_route sample_stack
      (ReadBytes (chars "HEAD /hello/you HTTP/1.1" ++ CRLF ++
                  chars "Host: here" ++ CRLF ++ CRLF)) sample_request
    = Ok o /\
    (o = ReturnFalse \/
     exists r' m',
       outcome_request o = Some r' /\ outcome_buffer o = Some m' /\
       nul_writes
         (read_into sample_stack
            (chars "HEAD /hello/you HTTP/1.1" ++ CRLF ++
             chars "Host: here" ++ CRLF ++ CRLF)) m' /\
       response r' = response sample_request).
Proof.
  let v := eval vm_compute in
             (lwan_process_request hello_route sample_stack
                (ReadBytes (chars "HEAD /hello/you HTTP/1.1" ++ CRLF ++
                            chars "Host: here" ++ CRLF ++ CRLF))
                sample_request)
  in match v with
     | Ok ?o1 =>
         exists o1;
         assert (H : lwan_process_request hello_route sample_stack
                       (ReadBytes (chars "HEAD /hello/you HTTP/1.1" ++ CRLF ++
                                   chars "Host: here" ++ CRLF ++ CRLF))
                       sample_request = Ok o1)
           by (vm_compute; reflexivity)
     end.
  split; [exact H|].
  exact (entry_point_only_writes_nul _ _ _ _ _ H).
Defined.

(** ** Setting the response and processing the request *)

Lemma finish_assign_set_response (o : option lwan_http_status_t)
    (a : assignment) (r : lwan_request_t) (resp : lwan_response_t) :
  finish o (assign a (lwan_request_set_response r resp))
  = lwan_request_set_response (finish o (assign a r)) resp.
Proof.
  destruct o; simpl; [reflexivity|]. unfold _compute_flags. simpl.
  destruct (default (http_version r) (a_http_version a)); reflexivity.
Qed.

(** X13. [lwan_request_set_response] and [lwan_process_request] do not
    interfere: processing a request whose response was set first gives the
    outcome of processing it as it was, with the response set afterwards; the
    same status or route, the same buffer, the same parsed fields. *)
Theorem set_response_commutes_with_processing
    (lookup : list ascii -> option lwan_url_map_t) (stack : mem)
    (rd : read_result) (request : lwan_request_t) (resp : lwan_response_t)
    (o : outcome) :
  lwan_process_request lookup stack rd request = Ok o ->
  lwan_process_request lookup stack rd (lwan_request_set_response request resp)
  = Ok (outcome_map (fun r => lwan_request_set_response r resp) o).
Proof.
  unfold lwan_process_request. intros H.
  destruct rd as [|data]; [inversion H; reflexivity|].
  destruct (_ =? 0); [inversion H; reflexivity|].
  destruct (_ =? sizeof_buffer); [inversion H; reflexivity|].
  destruct (store _ _ NUL) as [m0|]; [|discriminate H]. cbn [bind] in *.
  destruct (parse_stages m0 request _) as [[[m1 r1] failed]|] eqn:Hstages;
    [|discriminate H].
  cbn [bind] in H.
  apply parse_stages_inv in Hstages as Hinv.
  destruct Hinv as (_ & [a Ha] & _).
  assert (Hr1 : r1 = finish failed (assign a request))
    by (specialize (Ha request); rewrite Hstages in Ha; congruence).
  rewrite (Ha (lwan_request_set_response request resp)). cbn [bind].
  rewrite finish_assign_set_response, <- Hr1.
  destruct failed as [status|]; [inversion H; reflexivity|].
  change (url (lwan_request_set_response r1 resp)) with (url r1).
  destruct (cstring m1 (url r1)) as [path|]; [|discriminate H].
  cbn [bind] in *.
  destruct (lookup path) as [url_map|]; inversion H; reflexivity.
Qed.

Lemma set_response_commutes_with_processing_witness :
  exists o,
    lwan_process_request hello_route sample_stack
      (ReadBytes (chars "GET /hello HTTP/1.1" ++ CRLF ++ CRLF)) sample_request
    = Ok o /\
    lwan_process_request hello_route sample_stack
      (ReadBytes (chars "GET /hello HTTP/1.1" ++ CRLF ++ CRLF))
      (lwan_request_set_response sample_request html_response)
    = Ok (outcome_map
            (fun r => lwan_request_set_response r html_response) o).
Proof.
  let v := eval vm_compute in
             (lwan_process_request hello_route sample_stack
                (ReadBytes (chars "GET /hello HTTP/1.1" ++ CRLF ++ CRLF))
                sample_request)
  in match v with
     | Ok ?o1 =>
         exists o1;
         assert (H : lwan_process_request hello_route sample_stack
                       (ReadBytes (chars "GET /hello HTTP/1.1" ++ CRLF ++ CRLF))
                       sample_request = Ok o1)
           by (vm_compute; reflexivity)
     end.
  split; [exact H|].
  exact (set_response_commutes_with_processing _ _ _ _ html_response _ H).
Defined.
